(** * timesheet-bot: duration extraction, rounding, formatting, intake gate
      and weekly tracker of [app.js]

    [app.js] comes in two revisions.  The first one (the plain relay) and the
    second one (relay with the Friday policy, the weekly tracker and the cron
    callbacks) share [roundToNearestMinute], [formatTimeMessage] and the
    date-range pattern; they differ in the total-hours pattern and in the
    message handler.  The shared functions are embedded once, the differing
    ones in the modules [V1] and [V2].

    Modelling conventions.
    - A JavaScript string is the list of its UTF-16 code units ([jsstring]).
    - A JavaScript number that holds an integer is a [Z]; every number the
      handlers compute stays far below 2^53, where doubles are exact, and
      properties of the arithmetic outside the parser's range are stated on
      [inExactRange].
    - A property of an object that may be missing is an [option]; a method
      call on a missing one throws, as in the source.
    - [async]/[await] is sequential composition; an event is handled as one
      uninterrupted run.  [console.log]/[console.error] are not recorded.
    - The collaborators (file download, pdf-parse, chat.postMessage, the
      clock and the process environment) are the fields of a [World]. *)

From Stdlib Require Import String Ascii DecimalString DecimalZ.
From Stdlib Require Import List ZArith NArith Bool Lia.
Import ListNotations.

Open Scope Z_scope.

(* ================================================================== *)
(** ** JavaScript strings *)

Definition jsstring := list N.

(** A literal of the source, as code units. *)
Definition str (s : string) : jsstring :=
  map N_of_ascii (list_ascii_of_string s).

Fixpoint jseq (a b : jsstring) : bool :=
  match a, b with
  | [], [] => true
  | x :: a', y :: b' => N.eqb x y && jseq a' b'
  | _, _ => false
  end.

(** ToBoolean on a string: only the empty string is falsy. *)
Definition truthy (s : jsstring) : bool :=
  match s with [] => false | _ :: _ => true end.

(** Template-literal conversion of an integer-valued number: the plain
    decimal numeral.  This is what JavaScript prints for integers of
    magnitude below [10^21]; from there on it switches to exponent notation,
    far beyond the three-digit hours the parser can produce. *)
Definition numToString (z : Z) : jsstring :=
  str (NilEmpty.string_of_int (Z.to_int z)).

(* ================================================================== *)
(** ** Rounding policy: [roundToNearestMinute] *)

Record RoundedTime := mkRounded { roundedHours : Z; roundedMinutes : Z }.

(** The integers on which the arithmetic of [roundToNearestMinute], done by
    JavaScript on doubles, is exact: with components of magnitude up to
    [10^12] the total stays far below [2^53], so products and sums are the
    integer ones, and the quotient by 60 is computed with an error far below
    [1/60], so [Math.floor] of it is the integer floor. *)
Definition inExactRange (z : Z) : Prop :=
  -1000000000000 <= z <= 1000000000000.

(** [Math.floor(x / 60)] is [Z.div] (floor); [%] is the truncating
    remainder [Z.rem].  Numbers are modelled as unbounded integers, which
    agrees with the doubles of the source on [inExactRange]; properties
    stated outside the clock range carry that range as a hypothesis. *)
Definition roundToNearestMinute (hours minutes seconds : Z) : RoundedTime :=
  let totalMinutes := hours * 60 + minutes in
  let totalMinutes :=
    if seconds >=? 30 then totalMinutes + 1 else totalMinutes in
  {| roundedHours := totalMinutes / 60;
     roundedMinutes := Z.rem totalMinutes 60 |}.

(** Minute count denoted by a rounded duration. *)
Definition minutesOf (r : RoundedTime) : Z :=
  roundedHours r * 60 + roundedMinutes r.

(* ================================================================== *)
(** ** Message formatter: [formatTimeMessage] *)

(** The local [timeStr] of [formatTimeMessage], statement by statement. *)
Definition timeStr (roundedTime : RoundedTime) : jsstring :=
  let hours := roundedHours roundedTime in
  let minutes := roundedMinutes roundedTime in
  let timeStr := [] in
  let timeStr :=
    if hours >? 0
    then timeStr ++ numToString hours ++ str " hour"
                 ++ (if negb (hours =? 1) then str "s" else [])
    else timeStr in
  let timeStr :=
    if minutes >? 0
    then
      let timeStr := if truthy timeStr then timeStr ++ str " " else timeStr in
      timeStr ++ numToString minutes ++ str " minute"
              ++ (if negb (minutes =? 1) then str "s" else [])
    else timeStr in
  let timeStr := if negb (truthy timeStr) then str "0 minutes" else timeStr in
  timeStr.

Definition formatTimeMessage
  (employeeName : jsstring) (roundedTime : RoundedTime) (dateRange : jsstring)
  : jsstring :=
  employeeName ++ str "'s time for week of " ++ dateRange ++ str ": *"
               ++ timeStr roundedTime ++ str "*".

(** Spec wording of one clause of the duration phrase: the quantity, a
    space, the unit, and a plural [s] unless the quantity is exactly 1. *)
Definition clause (q : Z) (unit : string) : jsstring :=
  numToString q ++ str " " ++ str unit ++ (if q =? 1 then [] else str "s").

(* ================================================================== *)
(** ** String builtins used by the intake gate *)

(** [String.prototype.toLowerCase], one code unit at a time.  ASCII capitals
    go to their small letters.  Outside ASCII only two code units have a lower
    case that holds an ASCII letter: U+212A (Kelvin sign, to [k]) and U+0130
    (capital I with dot, to [i] followed by U+0307).  Every other code unit
    above 127 lower-cases to code units above 127 and is kept as it is, which
    no comparison against the ASCII needles of this program can tell
    apart. *)
Definition lowerUnit (c : N) : jsstring :=
  if ((65 <=? c) && (c <=? 90))%N then [(c + 32)%N]
  else if (c =? 8490)%N then [107%N]
  else if (c =? 304)%N then [105%N; 775%N]
  else [c].

Definition toLowerCase (s : jsstring) : jsstring := flat_map lowerUnit s.

(** [s.startsWith(p)] *)
Fixpoint startsWith (s p : jsstring) {struct p} : bool :=
  match p, s with
  | [], _ => true
  | x :: p', y :: s' => N.eqb x y && startsWith s' p'
  | _ :: _, [] => false
  end.

(** [s.includes(p)]: some position of [s] starts with [p]. *)
Fixpoint includes (s p : jsstring) : bool :=
  startsWith s p ||
  match s with
  | [] => false
  | _ :: s' => includes s' p
  end.

(** [s.endsWith(p)]: the last [p.length] code units of [s] are [p]. *)
Definition endsWith (s p : jsstring) : bool :=
  (length p <=? length s)%nat &&
  jseq (skipn (length s - length p) s) p.

(* ================================================================== *)
(** ** Regular expressions of the source *)

(** [\d] *)
Definition isDigit (c : N) : bool := ((48 <=? c) && (c <=? 57))%N.

(** [\s]: the ECMAScript WhiteSpace and LineTerminator code units. *)
Definition isSpace (c : N) : bool :=
  ((9 <=? c) && (c <=? 13) || (c =? 32) || (c =? 160) || (c =? 5760)
   || (8192 <=? c) && (c <=? 8202) || (c =? 8232) || (c =? 8233)
   || (c =? 8239) || (c =? 8287) || (c =? 12288) || (c =? 65279))%N.

(** Canonicalize of a pattern without the [u] flag, restricted to what an
    ASCII pattern can observe: small ASCII letters go to capitals; a code
    unit above 127 never canonicalizes to an ASCII one and is kept. *)
Definition canonicalize (c : N) : N :=
  if ((97 <=? c) && (c <=? 122))%N then (c - 32)%N else c.

(** A pattern character under the [i] flag. *)
Definition chI (p : N) : N -> bool :=
  fun c => (canonicalize c =? canonicalize p)%N.

(** A pattern character without the [i] flag. *)
Definition ch (p : N) : N -> bool := fun c => (c =? p)%N.

(** The fragment of the pattern language the source uses.  Quantifiers are
    greedy and only ever apply to a one-character atom. *)
Inductive regex : Type :=
| Atom (cls : N -> bool)                           (* one character of a class *)
| Quant (cls : N -> bool) (lo : nat) (hi : option nat)  (* cls{lo,hi}, cls*  *)
| Group (r : regex)                                (* ( r ) *)
| Cat (r1 r2 : regex)
| Eps.

(** A literal word of the pattern, character by character. *)
Definition lit (mk : N -> N -> bool) (w : string) : regex :=
  fold_right (fun c r => Cat (Atom (mk c)) r) Eps (str w).

Definition star (cls : N -> bool) : regex := Quant cls 0 None.
Definition exactly (n : nat) (cls : N -> bool) : regex := Quant cls n (Some n).

Section Matcher.
Variable R : Type.

(** Greedy quantifier with backtracking: take one more character when the
    upper bound allows and the class accepts it; if the rest of the pattern
    then fails, or no character can be taken, stop here provided the lower
    bound is met.  The continuation [k] receives the characters taken and
    the remaining input. *)
Fixpoint quant (cls : N -> bool) (lo : nat) (hi : option nat)
         (s : jsstring) (k : jsstring -> jsstring -> option R)
         {struct s} : option R :=
  let stop := match lo with O => k [] s | S _ => None end in
  match hi with
  | Some O => stop
  | _ =>
    match s with
    | c :: s' =>
      if cls c then
        match quant cls (Nat.pred lo) (option_map Nat.pred hi) s'
                    (fun w rest => k (c :: w) rest) with
        | Some r => Some r
        | None => stop
        end
      else stop
    | [] => stop
    end
  end.

(** Backtracking matcher in continuation style: [k] is the rest of the
    pattern; it receives what this pattern consumed, the remaining input
    and the captures so far. *)
Fixpoint matchAt (r : regex) (s : jsstring) (caps : list jsstring)
         (k : jsstring -> jsstring -> list jsstring -> option R)
         : option R :=
  match r with
  | Eps => k [] s caps
  | Atom cls =>
    match s with
    | c :: s' => if cls c then k [c] s' caps else None
    | [] => None
    end
  | Quant cls lo hi => quant cls lo hi s (fun w s' => k w s' caps)
  | Group r1 =>
    matchAt r1 s caps (fun w s' caps' => k w s' (caps' ++ [w]))
  | Cat r1 r2 =>
    matchAt r1 s caps (fun w1 s1 caps1 =>
      matchAt r2 s1 caps1 (fun w2 s2 caps2 => k (w1 ++ w2) s2 caps2))
  end.
End Matcher.

Arguments quant {R} cls lo hi s k.
Arguments matchAt {R} r s caps k.

(** The pattern tried at the very start of [s]: the captures of the first
    successful way to match, in backtracking order. *)
Definition matchHere (r : regex) (s : jsstring) : option (list jsstring) :=
  matchAt r s [] (fun _ _ caps => Some caps).

(** [text.match(r)] for a pattern without the [g] flag: the leftmost start
    position at which the pattern matches; the result holds the capture
    groups 1, 2, ... in order. *)
Fixpoint jsmatch (r : regex) (text : jsstring) : option (list jsstring) :=
  match matchHere r text with
  | Some caps => Some caps
  | None =>
    match text with
    | [] => None
    | _ :: text' => jsmatch r text'
    end
  end.

(** Capture group [i] (1-based) of a match result. *)
Definition group (caps : list jsstring) (i : nat) : jsstring :=
  nth (i - 1) caps [].

(** [/(\d{2}\/\d{2}\/\d{4})\s*[-]\s*(\d{2}\/\d{2}\/\d{4})/] *)
Definition dateRe : regex :=
  Cat (exactly 2 isDigit) (Cat (Atom (ch 47)) (Cat (exactly 2 isDigit)
    (Cat (Atom (ch 47)) (exactly 4 isDigit)))).

Definition dateRangeRe : regex :=
  Cat (Group dateRe)
    (Cat (star isSpace) (Cat (Atom (ch 45)) (Cat (star isSpace)
      (Group dateRe)))).

(** The three capture groups shared by both total-hours patterns:
    [(\d{1,3}):(\d{2}):(\d{2})] *)
Definition hmsRe : regex :=
  Cat (Group (Quant isDigit 1 (Some 3%nat)))
    (Cat (Atom (chI 58)) (Cat (Group (exactly 2 isDigit))
      (Cat (Atom (chI 58)) (Group (exactly 2 isDigit))))).

(* ================================================================== *)
(** ** Duration parser: [parseTogglPdf] *)

(** A thrown [Error]; [message] is its [.message]. *)
Record Error := mkError { message : jsstring }.

(** Outcome of a call that may throw (or of a promise that may reject). *)
Definition result (A : Type) : Type := (Error + A)%type.

Record TimeData := mkTimeData {
  hours : Z; minutes : Z; seconds : Z; dateRange : jsstring }.

(** [parseInt(s, 10)] on the inputs it gets here: the value of the leading
    run of decimal digits.  The captures of [\d{..}] are non-empty digit
    strings, so the sign, white-space and NaN cases of [parseInt] never
    arise. *)
Fixpoint parseDigits (acc : Z) (s : jsstring) : Z :=
  match s with
  | c :: s' =>
    if isDigit c then parseDigits (acc * 10 + Z.of_N (c - 48)) s' else acc
  | [] => acc
  end.

Definition parseInt (s : jsstring) : Z := parseDigits 0 s.

(** The body of [parseTogglPdf] after [data.text] has been obtained,
    for a given total-hours pattern. *)
Definition parseText (totalHoursRe : regex) (text : jsstring)
  : result TimeData :=
  match jsmatch totalHoursRe text with
  | None => inl (mkError (str "Could not find TOTAL HOURS in the PDF"))
  | Some totalHoursMatch =>
    let hours := parseInt (group totalHoursMatch 1) in
    let minutes := parseInt (group totalHoursMatch 2) in
    let seconds := parseInt (group totalHoursMatch 3) in
    let dateRangeMatch := jsmatch dateRangeRe text in
    let dateRange :=
      match dateRangeMatch with
      | Some m => group m 1 ++ str " - " ++ group m 2
      | None => str "this week"
      end in
    inr (mkTimeData hours minutes seconds dateRange)
  end.

(* ================================================================== *)
(** ** Events, collaborators and the handler monad *)

Definition Buffer := list N.

(** An attachment as the event carries it.  Every field may be missing
    ([undefined], [None]): files that are hidden or need a separate lookup
    arrive as stubs with an id only. *)
Record File := mkFile {
  name : option jsstring;
  mimetype : option jsstring;
  url_private : option jsstring }.

(** [files], [channel] and [channel_type] may be [undefined] ([None]). *)
Record Event := mkEvent {
  files : option (list File);
  channel : option jsstring;
  channel_type : option jsstring }.

(** Everything outside the process.  [chat_postMessage n ch text] is the
    outcome of the call [client.chat.postMessage({channel: ch, text})] made
    after [n] earlier such calls of the same run: [None] when it resolves,
    [Some e] when it rejects with [e]. *)
Record World := mkWorld {
  env_MANAGER_USER_ID : option jsstring;
  env_HR_USER_ID : option jsstring;
  env_ROXIE_USER_ID : option jsstring;
  env_EMPLOYEE_NAME : option jsstring;
  env_FRIDAY_ONLY : option jsstring;
  env_SLACK_BOT_TOKEN : option jsstring;
  getDay : Z;                      (* [new Date().getDay()] *)
  now : Z;                         (* [new Date()] *)
  https_get : option jsstring -> option jsstring -> result Buffer;
  pdf : Buffer -> result jsstring; (* pdf-parse, [data.text] *)
  chat_postMessage : nat -> option jsstring -> jsstring -> option Error }.

(** [x || d] on a value that is a string or [undefined]. *)
Definition orElse (x : option jsstring) (d : jsstring) : jsstring :=
  match x with
  | Some v => if truthy v then v else d
  | None => d
  end.

(** ToBoolean of a value that is a string or [undefined]. *)
Definition truthyOpt (x : option jsstring) : bool :=
  match x with Some v => truthy v | None => false end.

(** [x !== lit] for a value that is a string or [undefined]. *)
Definition strictNeq (x : option jsstring) (l : jsstring) : bool :=
  match x with Some v => negb (jseq v l) | None => true end.

(** [config.employeeName], [config.hrUserId], [config.roxieUserId] *)
Definition employeeName (w : World) : jsstring :=
  orElse (env_EMPLOYEE_NAME w) (str "Roxie").
Definition hrUserId (w : World) : option jsstring := env_HR_USER_ID w.
Definition roxieUserId (w : World) : option jsstring := env_ROXIE_USER_ID w.

(** The weekly tracker: the two module-level variables of the second
    revision. *)
Record Tracker := mkTracker {
  timesheetReceivedThisWeek : bool;
  lastTimesheetDate : option Z }.

(** The places of the source that call [chat.postMessage]. *)
Inductive Site : Type :=
| Notice     (* "I only process on Fridays!" *)
| Relay      (* the summary, to [config.hrUserId] *)
| Confirm    (* "I've forwarded ..." *)
| Failure    (* the message sent from the [catch] block *)
| Reminder.  (* [sendReminderToRoxie] *)

(** What a run did to the outside, in order; [ok] tells whether the call
    resolved.  The site of a post is bookkeeping of the model only. *)
Inductive Effect : Type :=
| Download (url : option jsstring) (ok : bool)
| Post (site : Site) (ch : option jsstring) (text : jsstring) (ok : bool).

Record St := mkSt { tracker : Tracker; trace : list Effect }.

(** Computations that may throw, over the tracker and the effect trace. *)
Definition M (A : Type) : Type := St -> result A * St.

Definition ret {A} (a : A) : M A := fun st => (inr a, st).

Definition bind {A B} (m : M A) (f : A -> M B) : M B :=
  fun st =>
    match m st with
    | (inr a, st') => f a st'
    | (inl e, st') => (inl e, st')
    end.

Definition throw {A} (e : Error) : M A := fun st => (inl e, st).

(** [try { body } catch (error) { handler }]: what [body] did before it
    threw stays done. *)
Definition tryCatch {A} (body : M A) (handler : Error -> M A) : M A :=
  fun st =>
    match body st with
    | (inr a, st') => (inr a, st')
    | (inl e, st') => handler e st'
    end.

Definition liftResult {A} (r : result A) : M A :=
  match r with inl e => throw e | inr a => ret a end.

Definition setTracker (t : Tracker) : M unit :=
  fun st => (inr tt, mkSt t (trace st)).

Definition getTracker : M Tracker := fun st => (inr (tracker st), st).

Notation "x <- m ;; k" := (bind m (fun x => k))
  (at level 61, m at next level, right associativity).
Notation "m ;; k" := (bind m (fun _ => k))
  (at level 61, right associativity).

Definition isPost (e : Effect) : bool :=
  match e with Post _ _ _ _ => true | Download _ _ => false end.

Definition isDownload (e : Effect) : bool :=
  match e with Download _ _ => true | Post _ _ _ _ => false end.

(** [await client.chat.postMessage({ channel, text })] *)
Definition postMessage (w : World) (site : Site) (ch : option jsstring)
  (text : jsstring) : M unit :=
  fun st =>
    match chat_postMessage w (List.length (filter isPost (trace st))) ch text with
    | None =>
      (inr tt, mkSt (tracker st) (trace st ++ [Post site ch text true]))
    | Some e =>
      (inl e, mkSt (tracker st) (trace st ++ [Post site ch text false]))
    end.

(** [await downloadFile(url, token)] *)
Definition downloadFile (w : World) (url token : option jsstring)
  : M Buffer :=
  fun st =>
    match https_get w url token with
    | inr buf => (inr buf, mkSt (tracker st) (trace st ++ [Download url true]))
    | inl e => (inl e, mkSt (tracker st) (trace st ++ [Download url false]))
    end.

(** [async function parseTogglPdf(pdfBuffer)] for a given total-hours
    pattern: text extraction, then the textual parse. *)
Definition parseTogglPdfWith (totalHoursRe : regex) (w : World)
  (pdfBuffer : Buffer) : M TimeData :=
  text <- liftResult (pdf w pdfBuffer) ;;
  liftResult (parseText totalHoursRe text).

(** [x === lit] for a value that is a string or [undefined]. *)
Definition strictEq (x : option jsstring) (l : jsstring) : bool :=
  match x with Some v => jseq v l | None => false end.

(** The [TypeError] thrown by a method call on [undefined], in the wording
    of current V8 (Node 16 and later). *)
Definition nameTypeError : Error :=
  mkError (str "Cannot read properties of undefined (reading 'toLowerCase')").

(** [file.name.toLowerCase()]: throws when the attachment has no name. *)
Definition lowerName (file : File) : result jsstring :=
  match name file with
  | Some n => inr (toLowerCase n)
  | None => inl nameTypeError
  end.

(** The predicate handed to [event.files.find]; [||] looks at the name only
    when the mime type is not [application/pdf]. *)
Definition isPdf (file : File) : result bool :=
  if strictEq (mimetype file) (str "application/pdf") then inr true
  else
    match lowerName file with
    | inl e => inl e
    | inr lowered => inr (endsWith lowered (str ".pdf"))
    end.

(** [Array.prototype.find] with a predicate that may throw: the first
    element the predicate accepts, unless the predicate throws before. *)
Fixpoint jsfind {A : Type} (p : A -> result bool) (l : list A)
  : result (option A) :=
  match l with
  | [] => inr None
  | x :: l' =>
    match p x with
    | inl e => inl e
    | inr true => inr (Some x)
    | inr false => jsfind p l'
    end
  end.

(** [isTogglExport] for the candidate file. *)
Definition isTogglExport (pdfFile : File) : result bool :=
  match lowerName pdfFile with
  | inl e => inl e
  | inr fileName =>
    inr (includes fileName (str "toggl") || includes fileName (str "track")
         || includes fileName (str "summary"))
  end.

(** [!event.files || event.files.length === 0] *)
Definition noFiles (event : Event) : bool :=
  match files event with
  | None => true
  | Some fs => (List.length fs =? 0)%nat
  end.

(** [event.files.find(isPdf)] *)
Definition pdfFileOf (event : Event) : result (option File) :=
  match files event with
  | None => inr None
  | Some fs => jsfind isPdf fs
  end.

(** [[:\s]] under the [i] flag *)
Definition colonOrSpace (c : N) : bool := chI 58 c || isSpace c.

(* ================================================================== *)
(** ** First revision: plain relay *)

Module V1.

(** [/TOTAL HOURS:\s*(\d{1,3}):(\d{2}):(\d{2})/i] *)
Definition totalHoursRe : regex :=
  Cat (lit chI "TOTAL HOURS:") (Cat (star isSpace) hmsRe).

Definition parseTogglPdf : World -> Buffer -> M TimeData :=
  parseTogglPdfWith totalHoursRe.

(** [app.event('message', async ({ event, client }) => ...)] *)
Definition onMessage (w : World) (event : Event) : M unit :=
  tryCatch
    (if noFiles event then ret tt else
     if strictNeq (channel_type event) (str "im") then ret tt else
     found <- liftResult (pdfFileOf event) ;;
     match found with
     | None => ret tt
     | Some pdfFile =>
       isToggl <- liftResult (isTogglExport pdfFile) ;;
       if negb isToggl then ret tt else
       pdfBuffer <- downloadFile w (url_private pdfFile)
                                 (env_SLACK_BOT_TOKEN w) ;;
       timeData <- parseTogglPdf w pdfBuffer ;;
       let roundedTime :=
         roundToNearestMinute (hours timeData) (minutes timeData)
                              (seconds timeData) in
       let hrMessage :=
         formatTimeMessage (employeeName w) roundedTime
                           (dateRange timeData) in
       postMessage w Relay (hrUserId w) hrMessage ;;
       postMessage w Confirm (channel event)
         (str "I've forwarded " ++ employeeName w
            ++ str "'s time to Erickia:" ++ [10%N] ++ str "> " ++ hrMessage)
     end)
    (fun error =>
       if truthyOpt (channel event) then
         postMessage w Failure (channel event)
           (str "I had trouble processing that PDF: " ++ message error
              ++ [10%N; 10%N]
              ++ str "Please check that it's a valid Toggl summary report.")
       else ret tt).

End V1.

(* ================================================================== *)
(** ** Second revision: Friday policy, weekly tracker, cron callbacks *)

Module V2.

(** [/TOTAL\s*HOURS[:\s]*(\d{1,3}):(\d{2}):(\d{2})/i] *)
Definition totalHoursRe : regex :=
  Cat (lit chI "TOTAL") (Cat (star isSpace)
    (Cat (lit chI "HOURS") (Cat (star colonOrSpace) hmsRe))).

Definition parseTogglPdf : World -> Buffer -> M TimeData :=
  parseTogglPdfWith totalHoursRe.

(** [let timesheetReceivedThisWeek = false; let lastTimesheetDate = null;] *)
Definition initialTracker : Tracker := mkTracker false None.

Definition isFriday (w : World) : bool := getDay w =? 5.

Definition resetWeeklyTracker : M unit :=
  setTracker (mkTracker false None).

Definition sendReminderToRoxie (w : World) : M unit :=
  if negb (truthyOpt (roxieUserId w)) then ret tt else
  tryCatch
    (postMessage w Reminder (roxieUserId w)
       (str "Hi! Friendly reminder: Please send your weekly Toggl timesheet. Thanks!"))
    (fun _ => ret tt).

Definition fridayNotice : jsstring :=
  str "I received the timesheet, but I only process on Fridays!".

(** [app.event('message', async ({ event, client }) => ...)] *)
Definition onMessage (w : World) (event : Event) : M unit :=
  tryCatch
    (if noFiles event then ret tt else
     found <- liftResult (pdfFileOf event) ;;
     match found with
     | None => ret tt
     | Some pdfFile =>
       isToggl <- liftResult (isTogglExport pdfFile) ;;
       if negb isToggl then ret tt else
       let checkFridayOnly := strictNeq (env_FRIDAY_ONLY w) (str "false") in
       if checkFridayOnly && negb (isFriday w) then
         postMessage w Notice (channel event) fridayNotice ;;
         ret tt
       else
       pdfBuffer <- downloadFile w (url_private pdfFile)
                                 (env_SLACK_BOT_TOKEN w) ;;
       timeData <- parseTogglPdf w pdfBuffer ;;
       let roundedTime :=
         roundToNearestMinute (hours timeData) (minutes timeData)
                              (seconds timeData) in
       let hrMessage :=
         formatTimeMessage (employeeName w) roundedTime
                           (dateRange timeData) in
       postMessage w Relay (hrUserId w) hrMessage ;;
       setTracker (mkTracker true (Some (now w))) ;;
       postMessage w Confirm (channel event)
         (str "I've forwarded " ++ employeeName w
            ++ str "'s time to Erickia:" ++ [10%N] ++ str "> " ++ hrMessage)
     end)
    (fun error =>
       if truthyOpt (channel event) then
         postMessage w Failure (channel event)
                     (str "Error: " ++ message error)
       else ret tt).

(** The callback of [cron.schedule('30 17 * * 5', ...)]. *)
Definition fridayCheck (w : World) : M unit :=
  t <- getTracker ;;
  if negb (timesheetReceivedThisWeek t) then sendReminderToRoxie w
  else ret tt.

(** The callback of [cron.schedule('0 6 * * 1', ...)]. *)
Definition mondayReset : M unit := resetWeeklyTracker.

(** Everything that runs after start-up and can touch the tracker. *)
Inductive Op : Type :=
| OpMessage (w : World) (event : Event)
| OpFridayCheck (w : World)
| OpMondayReset.

Definition perform (op : Op) : M unit :=
  match op with
  | OpMessage w event => onMessage w event
  | OpFridayCheck w => fridayCheck w
  | OpMondayReset => mondayReset
  end.

End V2.

(** A run started from tracker [t] with an empty trace. *)
Definition runFrom {A} (m : M A) (t : Tracker) : result A * St :=
  m (mkSt t []).

Definition trackerAfter {A} (m : M A) (t : Tracker) : Tracker :=
  tracker (snd (runFrom m t)).

Definition traceOf {A} (m : M A) (t : Tracker) : list Effect :=
  trace (snd (runFrom m t)).

(* ================================================================== *)
(** ** The patterns read declaratively *)

(** The upper bound of a quantifier, [None] being unbounded. *)
Definition withinHi (hi : option nat) (n : nat) : Prop :=
  match hi with Some h => (n <= h)%nat | None => True end.

(** The words a pattern denotes, without any matching order. *)
Fixpoint Lang (r : regex) (w : jsstring) : Prop :=
  match r with
  | Eps => w = []
  | Atom cls => exists c, w = [c] /\ cls c = true
  | Quant cls lo hi =>
    forallb cls w = true /\ (lo <= List.length w)%nat /\
    withinHi hi (List.length w)
  | Group r1 => Lang r1 w
  | Cat r1 r2 => exists w1 w2, w = w1 ++ w2 /\ Lang r1 w1 /\ Lang r2 w2
  end.

(** A word of [r] starts at offset [i] of [text]. *)
Definition OccursAt (r : regex) (text : jsstring) (i : nat) : Prop :=
  exists pre w post,
    text = pre ++ w ++ post /\ List.length pre = i /\ Lang r w.

Definition Occurs (r : regex) (text : jsstring) : Prop :=
  exists i, OccursAt r text i.

(** Spec wording of the duration marker and its value. *)

(** The same text up to the case of ASCII letters. *)
Definition sameLetters (a b : jsstring) : Prop :=
  Forall2 (fun x y => canonicalize x = canonicalize y) a b.

Definition digits (n : nat) (w : jsstring) : Prop :=
  forallb isDigit w = true /\ List.length w = n.

Definition spaces (w : jsstring) : Prop := forallb isSpace w = true.

(** [H:MM:SS]: one to three digits of hours, exactly two of minutes and of
    seconds. *)
Definition Timestamp (h m s : jsstring) : Prop :=
  forallb isDigit h = true /\ (1 <= List.length h <= 3)%nat /\
  digits 2 m /\ digits 2 s.

(** First revision: the label [TOTAL HOURS:] in any letter case, then any
    run of white space, then the value. *)
Definition HasTotalHours1 (text : jsstring) : Prop :=
  exists pre lab ws h m s post,
    text = pre ++ lab ++ ws ++ h ++ [58%N] ++ m ++ [58%N] ++ s ++ post /\
    sameLetters lab (str "TOTAL HOURS:") /\ spaces ws /\ Timestamp h m s.

(** Second revision: [TOTAL] and [HOURS] in any letter case with any run of
    white space between them, then any run of colons and white space, then
    the value. *)
Definition HasTotalHours2 (text : jsstring) : Prop :=
  exists pre a ws b sep h m s post,
    text = pre ++ a ++ ws ++ b ++ sep
               ++ h ++ [58%N] ++ m ++ [58%N] ++ s ++ post /\
    sameLetters a (str "TOTAL") /\ spaces ws /\
    sameLetters b (str "HOURS") /\
    forallb (fun c => (c =? 58)%N || isSpace c) sep = true /\
    Timestamp h m s.

(** [MM/DD/YYYY] *)
Definition IsDate (d : jsstring) : Prop :=
  exists mm dd yyyy,
    d = mm ++ [47%N] ++ dd ++ [47%N] ++ yyyy /\
    digits 2 mm /\ digits 2 dd /\ digits 4 yyyy.

(** Two dates with a hyphen between them, white space around the hyphen
    being optional. *)
Definition HasDateRange (text : jsstring) : Prop :=
  exists pre d1 ws1 ws2 d2 post,
    text = pre ++ d1 ++ ws1 ++ [45%N] ++ ws2 ++ d2 ++ post /\
    IsDate d1 /\ spaces ws1 /\ spaces ws2 /\ IsDate d2.

(** Spec wording of the gate's file tests, on the lower-cased name. *)
Definition EndsIn (s p : jsstring) : Prop := exists pre, s = pre ++ p.

Definition Contains (s p : jsstring) : Prop :=
  exists pre post, s = pre ++ p ++ post.

Definition Named (f : File) : Prop := exists n, name f = Some n.

Definition IsPdfFile (f : File) : Prop :=
  mimetype f = Some (str "application/pdf") \/
  exists n, name f = Some n /\ EndsIn (toLowerCase n) (str ".pdf").

Definition Recognized (f : File) : Prop :=
  exists n,
    name f = Some n /\
    (Contains (toLowerCase n) (str "toggl") \/
     Contains (toLowerCase n) (str "track") \/
     Contains (toLowerCase n) (str "summary")).

(** The tracker states of the spec. *)
Definition PENDING (t : Tracker) : Prop := timesheetReceivedThisWeek t = false.
Definition SATISFIED (t : Tracker) : Prop := timesheetReceivedThisWeek t = true.

(** The error [parseTogglPdf] throws when the total-hours pattern does not
    match. *)
Definition notFound : Error :=
  mkError (str "Could not find TOTAL HOURS in the PDF").

(** No match of [r] starts at any of the first [n] offsets of [text]. *)
Definition noneBefore (r : regex) (text : jsstring) (n : nat) : bool :=
  forallb (fun i => match matchHere r (skipn i text) with
                    | None => true
                    | Some _ => false
                    end) (seq 0 n).

(** Spec wording of the summary line, the phrase left bare. *)
Definition plainSummary (employeeName : jsstring) (r : RoundedTime)
  (dateRange : jsstring) : jsstring :=
  employeeName ++ str "'s time for week of " ++ dateRange ++ str ": "
               ++ timeStr r.

(** ECMAScript line terminators: LF, CR, LS, PS. *)
Definition isLineTerminator (c : N) : bool :=
  ((c =? 10) || (c =? 13) || (c =? 8232) || (c =? 8233))%N.

Definition singleLine (s : jsstring) : Prop :=
  forallb (fun c => negb (isLineTerminator c)) s = true.

(** Worlds for worked examples: default configuration apart from the HR
    recipient, every collaborator succeeds, text extraction yields [text],
    and the day of the week is [day] (5 is Friday). *)
Definition exampleWorldOn (day : Z) (text : jsstring) : World :=
  mkWorld None (Some (str "U_HR")) None None None None day 1704700000
          (fun _ _ => inr []) (fun _ => inr text) (fun _ _ _ => None).

Definition exampleWorld (text : jsstring) : World := exampleWorldOn 5 text.

(** An effect other than a delivered relay to the recipient. *)
Definition notRelayed (e : Effect) : bool :=
  match e with
  | Post Relay _ _ true => false
  | _ => true
  end.

(** The summary the second revision relays for the parsed [td]. *)
Definition hrMessageOf (w : World) (td : TimeData) : jsstring :=
  formatTimeMessage (employeeName w)
    (roundToNearestMinute (hours td) (minutes td) (seconds td))
    (dateRange td).

(** The day-restriction policy is on and today is not the day. *)
Definition restrictedDay (w : World) : Prop :=
  env_FRIDAY_ONLY w <> Some (str "false") /\ getDay w <> 5.

(** The event of the end-to-end scenario of the spec. *)
Definition summaryFile (mime url : option jsstring) : File :=
  mkFile (Some (str "Toggl_Summary_2024.pdf")) mime url.

(** An attachment stub: neither name nor mime type nor URL. *)
Definition stubFile : File := mkFile None None None.

Definition exampleEvent : Event :=
  mkEvent (Some [summaryFile (Some (str "application/pdf"))
                             (Some (str "https://files/1"))])
          (Some (str "D_MANAGER")) (Some (str "im")).

(** The message the end-to-end scenario of the spec expects. *)
Definition expectedSummary : jsstring :=
  str "Roxie's time for week of 01/05/2024 - 01/11/2024: *5 hours 45 minutes*".

(** A text without the space character. *)
Definition noSpace (w : jsstring) : Prop :=
  forallb (fun c => negb (c =? 32)%N) w = true.

(** The capture groups a pattern records when it matches the word [w], in
    the order the groups close. *)
Fixpoint Caps (r : regex) (w : jsstring) (cs : list jsstring) : Prop :=
  match r with
  | Eps => w = [] /\ cs = []
  | Atom cls => (exists c, w = [c] /\ cls c = true) /\ cs = []
  | Quant cls lo hi =>
    (forallb cls w = true /\ (lo <= List.length w)%nat /\
     withinHi hi (List.length w)) /\ cs = []
  | Group r1 => exists cs1, Caps r1 w cs1 /\ cs = cs1 ++ [w]
  | Cat r1 r2 =>
    exists w1 w2 cs1 cs2,
      w = w1 ++ w2 /\ cs = cs1 ++ cs2 /\ Caps r1 w1 cs1 /\ Caps r2 w2 cs2
  end.

(** A post made at the relay site, delivered or not. *)
Definition isRelayPost (e : Effect) : bool :=
  match e with
  | Post Relay _ _ _ => true
  | _ => false
  end.

(** The text of the confirmation sent back to the sender. *)
Definition confirmText (w : World) (hrMessage : jsstring) : jsstring :=
  str "I've forwarded " ++ employeeName w
    ++ str "'s time to Erickia:" ++ [10%N] ++ str "> " ++ hrMessage.

(** The text the [catch] block of each revision sends for an error. *)
Definition failureText1 (e : Error) : jsstring :=
  str "I had trouble processing that PDF: " ++ message e ++ [10%N; 10%N]
    ++ str "Please check that it's a valid Toggl summary report.".

Definition failureText2 (e : Error) : jsstring :=
  str "Error: " ++ message e.

(** A Friday world like [exampleWorld] whose [chat.postMessage] outcomes
    are given by [chat]. *)
Definition worldWithChat
  (chat : nat -> option jsstring -> jsstring -> option Error)
  (text : jsstring) : World :=
  mkWorld None (Some (str "U_HR")) (Some (str "U_ROXIE")) None None None
          5 1704700000 (fun _ _ => inr []) (fun _ => inr text) chat.

(** The text of the weekly reminder. *)
Definition reminderText : jsstring :=
  str "Hi! Friendly reminder: Please send your weekly Toggl timesheet. Thanks!".

(** The operation is a message event whose relay reached the recipient. *)
Definition deliversRelay (op : V2.Op) : bool :=
  match op with
  | V2.OpMessage w event =>
    negb (forallb notRelayed (traceOf (V2.onMessage w event) V2.initialTracker))
  | _ => false
  end.

Definition isReset (op : V2.Op) : bool :=
  match op with V2.OpMondayReset => true | _ => false end.

(** The tracker after a sequence of operations, oldest first. *)
Definition runOps (ops : list V2.Op) (t : Tracker) : Tracker :=
  fold_left (fun t op => trackerAfter (V2.perform op) t) ops t.

(* ================================================================== *)
(** * Properties *)

(** ** Strings *)

Lemma jseq_eq (a b : jsstring) : jseq a b = true <-> a = b.
Proof.
  revert b; induction a as [|x a IH]; intros [|y b]; simpl;
    try (split; [discriminate | intros H; discriminate H]); try tauto.
  rewrite andb_true_iff, N.eqb_eq, IH.
  split; [intros [-> ->]; reflexivity | intros H; inversion H; auto].
Qed.

Lemma startsWith_spec (s p : jsstring) :
  startsWith s p = true <-> exists post, s = p ++ post.
Proof.
  revert s; induction p as [|x p IH]; intros s; simpl.
  - split; [intros _; exists s; reflexivity | reflexivity].
  - destruct s as [|y s].
    + split; [discriminate | intros [post H]; discriminate H].
    + rewrite andb_true_iff, N.eqb_eq, IH. split.
      * intros [-> [post ->]]. exists post. reflexivity.
      * intros [post H]. inversion H. split; [reflexivity | exists post; reflexivity].
Qed.

Lemma includes_spec (s p : jsstring) :
  includes s p = true <-> Contains s p.
Proof.
  unfold Contains. induction s as [|c s IH].
  - simpl. rewrite orb_false_r, startsWith_spec. split.
    + intros [post H]. exists [], post. exact H.
    + intros [pre [post H]]. destruct pre; [exists post; exact H | discriminate H].
  - cbn [includes]. rewrite orb_true_iff, startsWith_spec, IH. split.
    + intros [[post H] | [pre [post H]]].
      * exists [], post. exact H.
      * exists (c :: pre), post. rewrite H. reflexivity.
    + intros [[|x pre] [post H]].
      * left. exists post. exact H.
      * right. inversion H. exists pre, post. reflexivity.
Qed.

Lemma endsWith_spec (s p : jsstring) :
  endsWith s p = true <-> EndsIn s p.
Proof.
  unfold endsWith, EndsIn. rewrite andb_true_iff, Nat.leb_le, jseq_eq. split.
  - intros [Hle H]. exists (firstn (List.length s - List.length p) s).
    pose proof (firstn_skipn (List.length s - List.length p) s) as E.
    rewrite H in E. symmetry. exact E.
  - intros [pre ->]. rewrite length_app. split; [lia|].
    replace (List.length pre + List.length p - List.length p)%nat
      with (List.length pre + 0)%nat by lia.
    rewrite skipn_app, Nat.add_comm, skipn_all2 by (simpl; lia).
    replace (0 + List.length pre - List.length pre)%nat with 0%nat by lia.
    reflexivity.
Qed.

Lemma strictEq_spec (x : option jsstring) (l : jsstring) :
  strictEq x l = true <-> x = Some l.
Proof.
  unfold strictEq. destruct x as [v|].
  - rewrite jseq_eq. split; [intros ->; reflexivity | intros H; inversion H; auto].
  - split; discriminate.
Qed.

Lemma isPdf_spec (f : File) : isPdf f = inr true <-> IsPdfFile f.
Proof.
  unfold isPdf, IsPdfFile, lowerName.
  destruct (strictEq (mimetype f) (str "application/pdf")) eqn:Em.
  - apply strictEq_spec in Em. split; auto.
  - assert (Hm : mimetype f <> Some (str "application/pdf")).
    { intros H. apply strictEq_spec in H. rewrite H in Em. discriminate Em. }
    destruct (name f) as [n|].
    + split.
      * intros H. injection H as He. right. exists n.
        split; [reflexivity | apply endsWith_spec; exact He].
      * intros [H | [n' [Hn He]]]; [contradiction|].
        inversion Hn; subst n'. apply endsWith_spec in He. rewrite He.
        reflexivity.
    + split; [discriminate|].
      intros [H | [n' [Hn _]]]; [contradiction | discriminate Hn].
Qed.

(** A named attachment that is not a PDF is passed over by [find]. *)
Lemma isPdf_named_not (f : File) :
  Named f -> ~ IsPdfFile f -> isPdf f = inr false.
Proof.
  intros [n Hn] Hno. pose proof (isPdf_spec f) as Hs.
  unfold isPdf, lowerName in *. rewrite Hn in *.
  destruct (strictEq (mimetype f) (str "application/pdf"));
    [contradiction Hno; apply Hs; reflexivity|].
  destruct (endsWith (toLowerCase n) (str ".pdf"));
    [contradiction Hno; apply Hs; reflexivity | reflexivity].
Qed.

(** The predicate throws exactly on a nameless attachment whose mime type
    is not [application/pdf]. *)
Lemma isPdf_throws (f : File) (e : Error) :
  isPdf f = inl e <->
  name f = None /\ mimetype f <> Some (str "application/pdf") /\
  e = nameTypeError.
Proof.
  unfold isPdf, lowerName.
  destruct (strictEq (mimetype f) (str "application/pdf")) eqn:Em.
  - apply strictEq_spec in Em. split; [discriminate|].
    intros [_ [H _]]. contradiction.
  - assert (Hm : mimetype f <> Some (str "application/pdf")).
    { intros H. apply strictEq_spec in H. rewrite H in Em. discriminate Em. }
    destruct (name f) as [n|].
    + split; [discriminate | intros [H _]; discriminate H].
    + split.
      * intros H. inversion H. auto.
      * intros [_ [_ ->]]. reflexivity.
Qed.

Lemma isTogglExport_spec (f : File) :
  isTogglExport f = inr true <-> Recognized f.
Proof.
  unfold isTogglExport, Recognized, lowerName.
  destruct (name f) as [n|].
  - split.
    + intros H. injection H as He. exists n. split; [reflexivity|].
      rewrite !orb_true_iff, !includes_spec in He. tauto.
    + intros [n' [Hn H]]. inversion Hn; subst n'.
      rewrite <- !includes_spec, <- !orb_true_iff, orb_assoc in H.
      rewrite H. reflexivity.
  - split; [discriminate | intros [n' [Hn _]]; discriminate Hn].
Qed.

Lemma isTogglExport_named_not (f : File) :
  Named f -> ~ Recognized f -> isTogglExport f = inr false.
Proof.
  intros [n Hn] Hno. pose proof (isTogglExport_spec f) as Hs.
  unfold isTogglExport, lowerName in *. rewrite Hn in *.
  destruct (includes (toLowerCase n) (str "toggl")
            || includes (toLowerCase n) (str "track")
            || includes (toLowerCase n) (str "summary"));
    [contradiction Hno; apply Hs; reflexivity | reflexivity].
Qed.

Lemma isTogglExport_throws (f : File) :
  name f = None -> isTogglExport f = inl nameTypeError.
Proof. unfold isTogglExport, lowerName. intros ->. reflexivity. Qed.

(* ================================================================== *)
(** ** Rounding policy *)

(** C1.  For hours in [0,999] and minutes, seconds in [0,59],
    [roundToNearestMinute] returns [(T div 60, T mod 60)] for
    [T = hours*60 + minutes + (1 if seconds >= 30 else 0)]; the minutes
    component is in [0,59]; seconds up to 29 leave the minute count
    unchanged and seconds from 30 add exactly one minute; the carry reaches
    the hours (0h 59m 30s rounds to 1h 0m). *)
Theorem roundToNearestMinute_correct (h m s : Z) :
  0 <= h <= 999 -> 0 <= m <= 59 -> 0 <= s <= 59 ->
  let T := h * 60 + m + (if 30 <=? s then 1 else 0) in
  let r := roundToNearestMinute h m s in
  r = mkRounded (T / 60) (T mod 60) /\
  0 <= roundedMinutes r <= 59 /\
  (s <= 29 -> minutesOf r = h * 60 + m) /\
  (30 <= s -> minutesOf r = h * 60 + m + 1) /\
  roundToNearestMinute 0 59 30 = mkRounded 1 0.
Proof.
  intros Hh Hm Hs T r.
  assert (HT : 0 <= T) by (subst T; destruct (30 <=? s); lia).
  assert (Er : r = mkRounded (T / 60) (T mod 60)).
  { subst r T. unfold roundToNearestMinute.
    rewrite Z.geb_leb. destruct (30 <=? s) eqn:E.
    - rewrite Z.rem_mod_nonneg by lia. reflexivity.
    - rewrite Z.add_0_r, Z.rem_mod_nonneg by lia. reflexivity. }
  assert (Etot : minutesOf r = T).
  { rewrite Er. unfold minutesOf. simpl.
    pose proof (Z.div_mod T 60). lia. }
  split; [exact Er|]. split; [|split; [|split]].
  - rewrite Er. simpl. pose proof (Z.mod_pos_bound T 60). lia.
  - intros Hlo. rewrite Etot. subst T.
    destruct (30 <=? s) eqn:E; [apply Z.leb_le in E|]; lia.
  - intros Hhi. rewrite Etot. subst T.
    destruct (30 <=? s) eqn:E; [|apply Z.leb_gt in E]; lia.
  - reflexivity.
Qed.

Lemma roundToNearestMinute_correct_witness :
  roundToNearestMinute 37 15 45 = mkRounded 37 16 /\
  0 <= roundedMinutes (roundToNearestMinute 37 15 45) <= 59.
Proof.
  destruct (roundToNearestMinute_correct 37 15 45) as [E [B _]];
    [lia | lia | lia |].
  split; [exact E | exact B].
Defined.

(* ================================================================== *)
(** ** Message formatter *)

Lemma truthy_app_r (a b : jsstring) :
  truthy b = true -> truthy (a ++ b) = true.
Proof. destruct a; simpl; auto. Qed.

(** The hours clause and the minutes clause as [timeStr] builds them. *)
Lemma timeStr_cases (h m : Z) :
  timeStr (mkRounded h m) =
  match h >? 0, m >? 0 with
  | false, false => str "0 minutes"
  | true, false => clause h "hour"
  | false, true => clause m "minute"
  | true, true => clause h "hour" ++ str " " ++ clause m "minute"
  end.
Proof.
  unfold timeStr, clause. cbn [roundedHours roundedMinutes].
  rewrite !app_nil_l.
  assert (Th : forall x, truthy (numToString h ++ str " hour" ++ x) = true)
    by (intros x; apply truthy_app_r; reflexivity).
  assert (Tm : forall x y, truthy (x ++ numToString m ++ str " minute" ++ y) = true)
    by (intros x y; do 2 apply truthy_app_r; reflexivity).
  destruct (h >? 0), (m >? 0).
  - rewrite Th, Tm. cbn [negb].
    destruct (h =? 1), (m =? 1); cbn [negb];
      repeat rewrite <- app_assoc; reflexivity.
  - rewrite Th. cbn [negb]. destruct (h =? 1); reflexivity.
  - cbn [truthy]. rewrite (Tm []). cbn [negb].
    destruct (m =? 1); reflexivity.
  - reflexivity.
Qed.

(** C4.  The duration phrase: the hours clause is omitted when hours = 0 and
    the minutes clause when minutes = 0; a present clause is singular exactly
    when its quantity is 1 (see [clause]); two clauses are joined by one
    space, hours first; with both components 0 the phrase is [0 minutes].
    The five boundary values of the spec are checked as well. *)
Theorem timeStr_phrase (h m : Z) :
  0 <= h -> 0 <= m <= 59 ->
  let p := timeStr (mkRounded h m) in
  (h = 0 -> m = 0 -> p = str "0 minutes") /\
  (0 < h -> m = 0 -> p = clause h "hour") /\
  (h = 0 -> 0 < m -> p = clause m "minute") /\
  (0 < h -> 0 < m -> p = clause h "hour" ++ str " " ++ clause m "minute") /\
  (clause 1 "hour" = str "1 hour" /\ clause 1 "minute" = str "1 minute" /\
   (h <> 1 -> clause h "hour" = numToString h ++ str " hours") /\
   (m <> 1 -> clause m "minute" = numToString m ++ str " minutes")) /\
  (timeStr (mkRounded 0 0) = str "0 minutes" /\
   timeStr (mkRounded 1 0) = str "1 hour" /\
   timeStr (mkRounded 2 0) = str "2 hours" /\
   timeStr (mkRounded 0 1) = str "1 minute" /\
   timeStr (mkRounded 1 1) = str "1 hour 1 minute").
Proof.
  intros Hh Hm p. subst p. rewrite timeStr_cases.
  repeat split.
  - intros -> ->. reflexivity.
  - intros H0 ->. apply Z.gtb_lt in H0. rewrite H0. reflexivity.
  - intros -> H0. apply Z.gtb_lt in H0. rewrite H0. reflexivity.
  - intros H0 H1. apply Z.gtb_lt in H0, H1. rewrite H0, H1. reflexivity.
  - intros H1. unfold clause. apply Z.eqb_neq in H1. rewrite H1. reflexivity.
  - intros H1. unfold clause. apply Z.eqb_neq in H1. rewrite H1. reflexivity.
Qed.

Lemma timeStr_phrase_witness :
  timeStr (mkRounded 2 1) = clause 2 "hour" ++ str " " ++ clause 1 "minute".
Proof.
  destruct (timeStr_phrase 2 1) as [_ [_ [_ [H _]]]]; [lia | lia |].
  apply H; lia.
Defined.

(* ================================================================== *)
(** ** The matcher finds a match exactly when a word of the pattern is
       there *)

Lemma quant_stop {R : Type} (s : jsstring) (lo : nat)
  (k : jsstring -> jsstring -> option R) :
  match lo with O => k [] s | S _ => None end <> None <->
  lo = 0%nat /\ k [] s <> None.
Proof.
  destruct lo; split; try tauto; intros [H _]; discriminate H.
Qed.

(** One unfolding of [quant] while the upper bound is not used up. *)
Lemma quant_step {R : Type} (cls : N -> bool) (lo : nat) (hi : option nat)
  (c : N) (s : jsstring) (k : jsstring -> jsstring -> option R) :
  hi <> Some 0%nat ->
  quant cls lo hi (c :: s) k =
  if cls c then
    match quant cls (Nat.pred lo) (option_map Nat.pred hi) s
                (fun w rest => k (c :: w) rest) with
    | Some r => Some r
    | None => match lo with O => k [] (c :: s) | S _ => None end
    end
  else match lo with O => k [] (c :: s) | S _ => None end.
Proof.
  destruct hi as [[|h]|]; [intros H; contradiction H | |]; reflexivity.
Qed.

Lemma withinHi_pred (hi : option nat) (n : nat) :
  hi <> Some 0%nat ->
  (withinHi (option_map Nat.pred hi) n <-> withinHi hi (S n)).
Proof.
  destruct hi as [[|h]|]; cbn [withinHi option_map Nat.pred];
    [intros H; contradiction H; reflexivity | intros _; lia | tauto].
Qed.

Lemma quant_some {R : Type} (cls : N -> bool) :
  forall (s : jsstring) (lo : nat) (hi : option nat)
         (k : jsstring -> jsstring -> option R),
    quant cls lo hi s k <> None <->
    exists w rest,
      s = w ++ rest /\ forallb cls w = true /\
      (lo <= List.length w)%nat /\ withinHi hi (List.length w) /\
      k w rest <> None.
Proof.
  assert (Nil : forall s lo hi (k : jsstring -> jsstring -> option R),
             (lo = 0%nat /\ k [] s <> None) ->
             exists w rest,
               s = w ++ rest /\ forallb cls w = true /\
               (lo <= List.length w)%nat /\ withinHi hi (List.length w) /\
               k w rest <> None).
  { intros s lo hi k [-> Hk]. exists [], s.
    repeat split; auto. destruct hi; simpl; [lia | exact I]. }
  induction s as [|c s IH]; intros lo hi k.
  - (* no input left *)
    assert (E : quant cls lo hi [] k
                = match lo with O => k [] [] | S _ => None end)
      by (destruct hi as [[|h]|]; reflexivity).
    rewrite E, quant_stop. split; [apply Nil|].
    intros [w [rest [Hs [_ [Hlo [_ Hk]]]]]].
    symmetry in Hs. apply app_eq_nil in Hs. destruct Hs as [-> ->].
    simpl in Hlo. split; [lia | exact Hk].
  - assert (D : hi = Some 0%nat \/ hi <> Some 0%nat)
      by (destruct hi as [[|h]|];
          [left; reflexivity | right; discriminate | right; discriminate]).
    destruct D as [-> | Hhi].
    + (* upper bound used up *)
      change (quant cls lo (Some 0%nat) (c :: s) k)
        with (match lo with O => k [] (c :: s) | S _ => None end).
      rewrite quant_stop. split; [apply Nil|].
      intros [w [rest [Hs [_ [Hlo [Hw Hk]]]]]]. simpl in Hw.
      destruct w; [|simpl in Hw; lia]. simpl in Hs, Hlo. subst rest.
      split; [lia | exact Hk].
    + rewrite (quant_step cls lo hi c s k Hhi).
      specialize (IH (Nat.pred lo) (option_map Nat.pred hi)
                     (fun w rest => k (c :: w) rest)).
      destruct (cls c) eqn:Ec;
        [destruct (quant cls (Nat.pred lo) (option_map Nat.pred hi) s
                         (fun w rest => k (c :: w) rest)) eqn:Eq|].
      * (* one more character, and the rest matches *)
        split; [intros _ | intros _; discriminate].
        destruct IH as [IH _].
        destruct IH as [w [rest [Hs [Hall [Hlo [Hw Hk]]]]]]; [discriminate|].
        exists (c :: w), rest. cbn [forallb List.length app].
        rewrite Ec, Hall, Hs. apply (withinHi_pred hi _ Hhi) in Hw.
        repeat split; auto; lia.
      * (* one more character fails later on: stop here *)
        rewrite quant_stop. split; [apply Nil|].
        intros [w [rest [Hs [Hall [Hlo [Hw Hk]]]]]].
        destruct w as [|x w].
        -- simpl in Hs, Hlo. subst rest. split; [lia | exact Hk].
        -- exfalso. simpl in Hs. inversion Hs; subst x s.
           cbn [forallb List.length] in Hall, Hlo, Hw. rewrite Ec in Hall.
           apply (withinHi_pred hi _ Hhi) in Hw.
           destruct IH as [_ IH]. apply IH; [|reflexivity].
           exists w, rest. repeat split; auto; lia.
      * (* the class rejects the next character *)
        rewrite quant_stop. split; [apply Nil|].
        intros [w [rest [Hs [Hall [Hlo [Hw Hk]]]]]].
        destruct w as [|x w].
        -- simpl in Hs, Hlo. subst rest. split; [lia | exact Hk].
        -- exfalso. simpl in Hs. inversion Hs; subst x.
           simpl in Hall. rewrite Ec in Hall. discriminate.
Qed.

Lemma matchAt_some {R : Type} (r : regex) :
  forall (s : jsstring) (caps : list jsstring)
         (k : jsstring -> jsstring -> list jsstring -> option R)
         (P : jsstring -> jsstring -> Prop),
    (forall w rest c, k w rest c <> None <-> P w rest) ->
    (matchAt r s caps k <> None <->
     exists w rest, s = w ++ rest /\ Lang r w /\ P w rest).
Proof.
  induction r as [cls | cls lo hi | r1 IH1 | r1 IH1 r2 IH2 | ];
    intros s caps k P HP; cbn [matchAt Lang].
  - (* Atom *)
    destruct s as [|c s].
    + split; [intros H; contradiction H; reflexivity|].
      intros [w [rest [Hs [[c [-> _]] _]]]]. discriminate Hs.
    + destruct (cls c) eqn:Ec.
      * rewrite HP. split.
        -- intros H. exists [c], s. repeat split; eauto.
        -- intros [w [rest [Hs [[x [-> _]] H]]]]. inversion Hs; subst. exact H.
      * split; [intros H; contradiction H; reflexivity|].
        intros [w [rest [Hs [[x [-> Hx]] _]]]]. inversion Hs; subst.
        rewrite Ec in Hx. discriminate Hx.
  - (* Quant *)
    rewrite quant_some. split.
    + intros [w [rest [Hs [Hall [Hlo [Hhi Hk]]]]]].
      exists w, rest. apply (proj1 (HP w rest caps)) in Hk.
      repeat split; auto.
    + intros [w [rest [Hs [[Hall [Hlo Hhi]] Hk]]]].
      exists w, rest. apply (proj2 (HP w rest caps)) in Hk.
      repeat split; auto.
  - (* Group *)
    apply IH1. intros w rest c. apply HP.
  - (* Cat *)
    rewrite (IH1 s caps _
               (fun w1 s1 => exists w2 s2,
                    s1 = w2 ++ s2 /\ Lang r2 w2 /\ P (w1 ++ w2) s2)).
    + split.
      * intros [w1 [s1 [Hs [H1 [w2 [s2 [Hs1 [H2 HP2]]]]]]]].
        exists (w1 ++ w2), s2. rewrite <- app_assoc, <- Hs1.
        split; [exact Hs|]. split; [|exact HP2]. exists w1, w2. auto.
      * intros [w [rest [Hs [[w1 [w2 [Hw [H1 H2]]]] HPw]]]]. subst w.
        exists w1, (w2 ++ rest). rewrite app_assoc. split; [exact Hs|].
        split; [exact H1|]. exists w2, rest. auto.
    + intros w1 s1 c1. apply IH2. intros w2 s2 c2. apply HP.
  - (* Eps *)
    rewrite HP. split.
    + intros H. exists [], s. auto.
    + intros [w [rest [Hs [-> H]]]]. simpl in Hs. subst rest. exact H.
Qed.

Lemma matchHere_some (r : regex) (s : jsstring) :
  matchHere r s <> None <-> exists w rest, s = w ++ rest /\ Lang r w.
Proof.
  unfold matchHere.
  rewrite (matchAt_some r s [] _ (fun _ _ => True)).
  - split; intros [w [rest H]]; exists w, rest; tauto.
  - intros w rest c. split; [auto | discriminate].
Qed.

Lemma matchHere_occurs (r : regex) (s : jsstring) :
  matchHere r s <> None <-> OccursAt r s 0.
Proof.
  rewrite matchHere_some. unfold OccursAt. split.
  - intros [w [rest [Hs HL]]]. exists [], w, rest. auto.
  - intros [pre [w [post [Hs [Hlen HL]]]]].
    destruct pre; [|discriminate Hlen]. exists w, post. auto.
Qed.

Lemma OccursAt_cons (r : regex) (c : N) (s : jsstring) (i : nat) :
  OccursAt r (c :: s) (S i) <-> OccursAt r s i.
Proof.
  unfold OccursAt. split.
  - intros [pre [w [post [Hs [Hlen HL]]]]].
    destruct pre as [|x pre]; [discriminate Hlen|].
    inversion Hs; subst. exists pre, w, post. simpl in Hlen. auto.
  - intros [pre [w [post [Hs [Hlen HL]]]]].
    exists (c :: pre), w, post. subst s. simpl. auto.
Qed.

(** [text.match(r)] fails exactly when [r] occurs nowhere in [text]. *)
Lemma jsmatch_some (r : regex) (text : jsstring) :
  jsmatch r text <> None <-> Occurs r text.
Proof.
  unfold Occurs. induction text as [|c text IH]; cbn [jsmatch].
  - destruct (matchHere r []) eqn:E.
    + split; [intros _ | discriminate].
      exists 0%nat. apply matchHere_occurs. rewrite E. discriminate.
    + split; [intros H; contradiction H; reflexivity|].
      intros [i [pre [w [post [Hs [Hlen HL]]]]]].
      assert (H : matchHere r [] <> None).
      { apply matchHere_occurs. exists pre, w, post.
        destruct pre; [auto | discriminate Hs]. }
      contradiction H.
  - destruct (matchHere r (c :: text)) eqn:E.
    + split; [intros _ | discriminate].
      exists 0%nat. apply matchHere_occurs. rewrite E. discriminate.
    + rewrite IH. split.
      * intros [i H]. exists (S i). apply OccursAt_cons. exact H.
      * intros [[|i] H].
        -- apply matchHere_occurs in H. contradiction H.
        -- exists i. apply OccursAt_cons in H. exact H.
Qed.

(** The leftmost match wins: positions that do not match are skipped. *)
Lemma jsmatch_skip (r : regex) (pre rest : jsstring) :
  (forall i, (i < List.length pre)%nat -> ~ OccursAt r (pre ++ rest) i) ->
  jsmatch r (pre ++ rest) = jsmatch r rest.
Proof.
  induction pre as [|c pre IH]; intros H; [reflexivity|].
  cbn [app jsmatch].
  destruct (matchHere r (c :: pre ++ rest)) eqn:E.
  - exfalso. apply (H 0%nat); [simpl; lia|].
    apply matchHere_occurs. simpl. rewrite E. discriminate.
  - apply IH. intros i Hi Ho. apply (H (S i)); [simpl; lia|].
    simpl. apply OccursAt_cons. exact Ho.
Qed.

Lemma jsmatch_here (r : regex) (s : jsstring) (caps : list jsstring) :
  matchHere r s = Some caps -> jsmatch r s = Some caps.
Proof. intros H. destruct s; cbn [jsmatch]; rewrite H; reflexivity. Qed.

(* ================================================================== *)
(** ** The source patterns against the spec wording *)

Lemma chI_colon (c : N) : chI 58 c = (c =? 58)%N.
Proof.
  unfold chI, canonicalize. cbn [N.leb N.compare Pos.compare Pos.compare_cont andb].
  destruct ((97 <=? c) && (c <=? 122))%N eqn:E; [|reflexivity].
  apply andb_true_iff in E. destruct E as [E1 E2].
  apply N.leb_le in E1, E2.
  transitivity false; [apply N.eqb_neq | symmetry; apply N.eqb_neq]; lia.
Qed.

Lemma chI_colon_true (c : N) : chI 58 c = true <-> c = 58%N.
Proof. rewrite chI_colon. apply N.eqb_eq. Qed.

Lemma ch_true (p c : N) : ch p c = true <-> c = p.
Proof. unfold ch. apply N.eqb_eq. Qed.

Lemma Lang_lit_list (l x : jsstring) :
  Lang (fold_right (fun c r => Cat (Atom (chI c)) r) Eps l) x <->
  sameLetters x l.
Proof.
  unfold sameLetters. revert x.
  induction l as [|c l IH]; intros x; cbn [fold_right Lang].
  - split; [intros ->; constructor | intros H; inversion H; reflexivity].
  - split.
    + intros [w1 [w2 [-> [[a [-> Ha]] H2]]]].
      constructor; [apply N.eqb_eq; exact Ha | apply IH; exact H2].
    + intros H. inversion H as [|a c' x' l' Ha Hx]; subst.
      exists [a], x'. split; [reflexivity|]. split.
      * exists a. split; [reflexivity | apply N.eqb_eq; exact Ha].
      * apply IH. exact Hx.
Qed.

Lemma Lang_lit (w : string) (x : jsstring) :
  Lang (lit chI w) x <-> sameLetters x (str w).
Proof. apply Lang_lit_list. Qed.

Lemma Lang_exactly (n : nat) (cls : N -> bool) (w : jsstring) :
  Lang (exactly n cls) w <-> forallb cls w = true /\ List.length w = n.
Proof. cbn [exactly Lang withinHi]. split; intros H; repeat split; try tauto; lia. Qed.

Lemma Lang_star (cls : N -> bool) (w : jsstring) :
  Lang (star cls) w <-> forallb cls w = true.
Proof. cbn [star Lang withinHi]. split; intros H; repeat split; try tauto; lia. Qed.

Lemma Lang_hms (x : jsstring) :
  Lang hmsRe x <->
  exists h m s, x = h ++ [58%N] ++ m ++ [58%N] ++ s /\ Timestamp h m s.
Proof.
  unfold hmsRe, Timestamp, digits. cbn [Lang withinHi]. split.
  - intros [h [x1 [-> [[Hh [Hh1 Hh3]] H]]]].
    destruct H as [c1 [x2 [-> [[a [-> Ha]] H]]]].
    destruct H as [m [x3 [-> [Hm H]]]].
    destruct H as [b1 [s [-> [[b [-> Hb]] Hs]]]].
    apply chI_colon_true in Ha, Hb. subst a b.
    apply Lang_exactly in Hm, Hs.
    exists h, m, s. split; [reflexivity|]. tauto.
  - intros [h [m [s [-> [Hh [Hlen [Hm Hs]]]]]]].
    exists h, ([58%N] ++ m ++ [58%N] ++ s). split; [reflexivity|].
    split; [repeat split; try tauto; lia|].
    exists [58%N], (m ++ [58%N] ++ s). split; [reflexivity|].
    split; [exists 58%N; split; [reflexivity | apply chI_colon_true; reflexivity]|].
    exists m, ([58%N] ++ s). split; [reflexivity|].
    split; [apply Lang_exactly; exact Hm|].
    exists [58%N], s. split; [reflexivity|].
    split; [exists 58%N; split; [reflexivity | apply chI_colon_true; reflexivity]|].
    apply Lang_exactly. exact Hs.
Qed.

Lemma Occurs_decompose (r : regex) (text : jsstring) :
  Occurs r text <-> exists pre w post, text = pre ++ w ++ post /\ Lang r w.
Proof.
  unfold Occurs, OccursAt. split.
  - intros [i [pre [w [post [Hs [_ HL]]]]]]. exists pre, w, post. auto.
  - intros [pre [w [post [Hs HL]]]].
    exists (List.length pre), pre, w, post. auto.
Qed.

Lemma Occurs_V1 (text : jsstring) :
  Occurs V1.totalHoursRe text <-> HasTotalHours1 text.
Proof.
  rewrite Occurs_decompose. unfold HasTotalHours1, V1.totalHoursRe, spaces.
  cbn [Lang]. split.
  - intros [pre [w [post [-> H]]]].
    destruct H as [lab [x1 [-> [Hlab H]]]].
    destruct H as [ws [x2 [-> [Hws Hx]]]].
    apply Lang_lit in Hlab. apply (Lang_star isSpace) in Hws.
    apply Lang_hms in Hx. destruct Hx as [h [m [s [-> HT]]]].
    exists pre, lab, ws, h, m, s, post.
    split; [|tauto]. repeat rewrite <- app_assoc. reflexivity.
  - intros [pre [lab [ws [h [m [s [post H]]]]]]].
    destruct H as [-> [Hlab [Hws HT]]].
    exists pre, (lab ++ ws ++ h ++ [58%N] ++ m ++ [58%N] ++ s), post.
    split; [repeat rewrite <- app_assoc; reflexivity|].
    exists lab, (ws ++ h ++ [58%N] ++ m ++ [58%N] ++ s).
    split; [reflexivity|]. split; [apply Lang_lit; exact Hlab|].
    exists ws, (h ++ [58%N] ++ m ++ [58%N] ++ s).
    split; [reflexivity|]. split; [apply (Lang_star isSpace); exact Hws|].
    apply Lang_hms. exists h, m, s. auto.
Qed.

Lemma colonOrSpace_ext (sep : jsstring) :
  forallb colonOrSpace sep = forallb (fun c => (c =? 58)%N || isSpace c) sep.
Proof.
  induction sep as [|c sep IH]; [reflexivity|].
  cbn [forallb]. rewrite IH. unfold colonOrSpace. rewrite chI_colon.
  reflexivity.
Qed.

Lemma Occurs_V2 (text : jsstring) :
  Occurs V2.totalHoursRe text <-> HasTotalHours2 text.
Proof.
  rewrite Occurs_decompose. unfold HasTotalHours2, V2.totalHoursRe, spaces.
  cbn [Lang]. split.
  - intros [pre [w [post [-> H]]]].
    destruct H as [a [x1 [-> [Ha H]]]].
    destruct H as [ws [x2 [-> [Hws H]]]].
    destruct H as [b [x3 [-> [Hb H]]]].
    destruct H as [sep [x4 [-> [Hsep Hx]]]].
    apply Lang_lit in Ha, Hb. apply (Lang_star isSpace) in Hws.
    apply (Lang_star colonOrSpace) in Hsep. rewrite colonOrSpace_ext in Hsep.
    apply Lang_hms in Hx. destruct Hx as [h [m [s [-> HT]]]].
    exists pre, a, ws, b, sep, h, m, s, post.
    split; [|tauto]. repeat rewrite <- app_assoc. reflexivity.
  - intros [pre [a [ws [b [sep [h [m [s [post H]]]]]]]]].
    destruct H as [-> [Ha [Hws [Hb [Hsep HT]]]]].
    exists pre, (a ++ ws ++ b ++ sep ++ h ++ [58%N] ++ m ++ [58%N] ++ s), post.
    split; [repeat rewrite <- app_assoc; reflexivity|].
    exists a, (ws ++ b ++ sep ++ h ++ [58%N] ++ m ++ [58%N] ++ s).
    split; [reflexivity|]. split; [apply Lang_lit; exact Ha|].
    exists ws, (b ++ sep ++ h ++ [58%N] ++ m ++ [58%N] ++ s).
    split; [reflexivity|]. split; [apply (Lang_star isSpace); exact Hws|].
    exists b, (sep ++ h ++ [58%N] ++ m ++ [58%N] ++ s).
    split; [reflexivity|]. split; [apply Lang_lit; exact Hb|].
    exists sep, (h ++ [58%N] ++ m ++ [58%N] ++ s).
    split; [reflexivity|].
    split; [apply (Lang_star colonOrSpace); rewrite colonOrSpace_ext; exact Hsep|].
    apply Lang_hms. exists h, m, s. auto.
Qed.

Lemma Lang_date (d : jsstring) : Lang dateRe d <-> IsDate d.
Proof.
  unfold dateRe, IsDate, digits. cbn [Lang]. split.
  - intros [mm [x1 [-> [Hmm H]]]].
    destruct H as [c1 [x2 [-> [[a [-> Ha]] H]]]].
    destruct H as [dd [x3 [-> [Hdd H]]]].
    destruct H as [c2 [yyyy [-> [[b [-> Hb]] Hy]]]].
    apply ch_true in Ha, Hb. subst a b.
    apply Lang_exactly in Hmm, Hdd, Hy.
    exists mm, dd, yyyy. split; [reflexivity|]. tauto.
  - intros [mm [dd [yyyy [-> [Hmm [Hdd Hy]]]]]].
    exists mm, ([47%N] ++ dd ++ [47%N] ++ yyyy). split; [reflexivity|].
    split; [apply Lang_exactly; exact Hmm|].
    exists [47%N], (dd ++ [47%N] ++ yyyy). split; [reflexivity|].
    split; [exists 47%N; split; reflexivity|].
    exists dd, ([47%N] ++ yyyy). split; [reflexivity|].
    split; [apply Lang_exactly; exact Hdd|].
    exists [47%N], yyyy. split; [reflexivity|].
    split; [exists 47%N; split; reflexivity|].
    apply Lang_exactly. exact Hy.
Qed.

Lemma Occurs_dateRange (text : jsstring) :
  Occurs dateRangeRe text <-> HasDateRange text.
Proof.
  rewrite Occurs_decompose. unfold HasDateRange, dateRangeRe, spaces.
  cbn [Lang]. split.
  - intros [pre [w [post [-> H]]]].
    destruct H as [d1 [x1 [-> [Hd1 H]]]].
    destruct H as [ws1 [x2 [-> [Hws1 H]]]].
    destruct H as [c [x3 [-> [[a [-> Ha]] H]]]].
    destruct H as [ws2 [d2 [-> [Hws2 Hd2]]]].
    apply ch_true in Ha. subst a.
    apply Lang_date in Hd1, Hd2.
    apply (Lang_star isSpace) in Hws1, Hws2.
    exists pre, d1, ws1, ws2, d2, post.
    split; [|tauto]. repeat rewrite <- app_assoc. reflexivity.
  - intros [pre [d1 [ws1 [ws2 [d2 [post H]]]]]].
    destruct H as [-> [Hd1 [Hws1 [Hws2 Hd2]]]].
    exists pre, (d1 ++ ws1 ++ [45%N] ++ ws2 ++ d2), post.
    split; [repeat rewrite <- app_assoc; reflexivity|].
    exists d1, (ws1 ++ [45%N] ++ ws2 ++ d2).
    split; [reflexivity|]. split; [apply Lang_date; exact Hd1|].
    exists ws1, ([45%N] ++ ws2 ++ d2).
    split; [reflexivity|]. split; [apply (Lang_star isSpace); exact Hws1|].
    exists [45%N], (ws2 ++ d2). split; [reflexivity|].
    split; [exists 45%N; split; reflexivity|].
    exists ws2, d2. split; [reflexivity|].
    split; [apply (Lang_star isSpace); exact Hws2 | apply Lang_date; exact Hd2].
Qed.

(* ================================================================== *)
(** ** Duration parser *)

Lemma parseText_fails (re : regex) (text : jsstring) :
  parseText re text = inl notFound <-> ~ Occurs re text.
Proof.
  unfold parseText. rewrite <- jsmatch_some.
  destruct (jsmatch re text).
  - split; [discriminate | intros H; contradiction H; discriminate].
  - split; [intros _ H; apply H; reflexivity | reflexivity].
Qed.

Lemma parseText_total (re : regex) (text : jsstring) :
  parseText re text = inl notFound \/ exists td, parseText re text = inr td.
Proof.
  unfold parseText. destruct (jsmatch re text); [right | left]; eauto.
Qed.

Lemma parseTogglPdfWith_text (re : regex) (w : World) (buf : Buffer)
  (text : jsstring) (st : St) :
  pdf w buf = inr text ->
  parseTogglPdfWith re w buf st =
  (match parseText re text with inl e => inl e | inr td => inr td end, st).
Proof.
  intros H. unfold parseTogglPdfWith, bind. rewrite H. cbn [liftResult ret].
  destruct (parseText re text); reflexivity.
Qed.

(** C2.  Once the text is extracted, [parseTogglPdf] throws, with the
    message "Could not find TOTAL HOURS in the PDF", exactly when the text
    holds no total-hours marker followed by an [H:MM:SS] value (1-3 digits
    of hours, exactly 2 of minutes and of seconds); it throws nothing else;
    and the malformed value [1:5:30] makes it throw.  Each revision is held
    against the marker its own pattern spells. *)
Theorem parseTogglPdf_fails_iff_no_marker
  (w : World) (buf : Buffer) (text : jsstring) (st : St) :
  pdf w buf = inr text ->
  (V1.parseTogglPdf w buf st = (inl notFound, st) <-> ~ HasTotalHours1 text) /\
  (V2.parseTogglPdf w buf st = (inl notFound, st) <-> ~ HasTotalHours2 text) /\
  (V1.parseTogglPdf w buf st = (inl notFound, st) \/
   exists td, V1.parseTogglPdf w buf st = (inr td, st)) /\
  (V2.parseTogglPdf w buf st = (inl notFound, st) \/
   exists td, V2.parseTogglPdf w buf st = (inr td, st)) /\
  parseText V1.totalHoursRe (str "TOTAL HOURS: 1:5:30") = inl notFound /\
  parseText V2.totalHoursRe (str "TOTAL HOURS: 1:5:30") = inl notFound.
Proof.
  intros Hpdf. unfold V1.parseTogglPdf, V2.parseTogglPdf.
  rewrite (parseTogglPdfWith_text V1.totalHoursRe w buf text st Hpdf).
  rewrite (parseTogglPdfWith_text V2.totalHoursRe w buf text st Hpdf).
  rewrite <- Occurs_V1, <- Occurs_V2, <- !parseText_fails.
  repeat split.
  - intros H. destruct (parseText V1.totalHoursRe text); inversion H; reflexivity.
  - intros ->. reflexivity.
  - intros H. destruct (parseText V2.totalHoursRe text); inversion H; reflexivity.
  - intros ->. reflexivity.
  - destruct (parseText_total V1.totalHoursRe text) as [-> | [td ->]]; eauto.
  - destruct (parseText_total V2.totalHoursRe text) as [-> | [td ->]]; eauto.
Qed.

Lemma parseTogglPdf_fails_iff_no_marker_witness :
  ~ HasTotalHours1 (str "Invoice 12:30") /\
  ~ HasTotalHours2 (str "Invoice 12:30").
Proof.
  pose proof (parseTogglPdf_fails_iff_no_marker
                (exampleWorld (str "Invoice 12:30")) []
                (str "Invoice 12:30") (mkSt (mkTracker false None) [])
                eq_refl) as [H1 [H2 _]].
  split; [apply H1 | apply H2]; vm_compute; reflexivity.
Defined.

Lemma OccursAt_skipn (r : regex) (text : jsstring) (i : nat) :
  OccursAt r text i -> matchHere r (skipn i text) <> None.
Proof.
  intros [pre [w [post [-> [Hlen HL]]]]]. subst i.
  rewrite skipn_app, skipn_all, Nat.sub_diag. cbn [skipn app].
  apply matchHere_some. exists w, post. auto.
Qed.

Lemma noneBefore_spec (r : regex) (text : jsstring) (n : nat) :
  noneBefore r text n = true ->
  forall i, (i < n)%nat -> ~ OccursAt r text i.
Proof.
  unfold noneBefore. rewrite forallb_forall. intros H i Hi Ho.
  specialize (H i). rewrite in_seq in H.
  apply OccursAt_skipn in Ho.
  destruct (matchHere r (skipn i text)); [|contradiction Ho; reflexivity].
  assert (false = true) by (apply H; lia). discriminate.
Qed.

Lemma matchHere_371545_V1 (post : jsstring) :
  matchHere V1.totalHoursRe (str "TOTAL HOURS: 37:15:45" ++ post)
  = Some [str "37"; str "15"; str "45"].
Proof. destruct post; vm_compute; reflexivity. Qed.

Lemma matchHere_371545_V2 (post : jsstring) :
  matchHere V2.totalHoursRe (str "TOTAL HOURS: 37:15:45" ++ post)
  = Some [str "37"; str "15"; str "45"].
Proof. destruct post; vm_compute; reflexivity. Qed.

Lemma parseText_leftmost (re : regex) (pre word post : jsstring)
  (caps : list jsstring) :
  matchHere re (word ++ post) = Some caps ->
  (forall i, (i < List.length pre)%nat ->
             ~ OccursAt re (pre ++ word ++ post) i) ->
  parseText re (pre ++ word ++ post) =
  inr (mkTimeData
         (parseInt (group caps 1)) (parseInt (group caps 2))
         (parseInt (group caps 3))
         match jsmatch dateRangeRe (pre ++ word ++ post) with
         | Some m => group m 1 ++ str " - " ++ group m 2
         | None => str "this week"
         end).
Proof.
  intros Hm Hnone. unfold parseText.
  rewrite (jsmatch_skip re pre (word ++ post) Hnone).
  rewrite (jsmatch_here re (word ++ post) caps Hm).
  reflexivity.
Qed.

Lemma parseText_default_range (re : regex) (text : jsstring) :
  Occurs re text -> ~ HasDateRange text ->
  exists h m s, parseText re text = inr (mkTimeData h m s (str "this week")).
Proof.
  intros Ho Hd. unfold parseText.
  apply jsmatch_some in Ho. rewrite <- Occurs_dateRange, <- jsmatch_some in Hd.
  destruct (jsmatch re text) as [caps|]; [|contradiction Ho; reflexivity].
  destruct (jsmatch dateRangeRe text); [contradiction Hd; discriminate|].
  do 3 eexists. reflexivity.
Qed.

(** C3, as stated, fails: a text may contain [TOTAL HOURS: 37:15:45] after
    an earlier match, and the earlier match is the one returned. *)
Lemma parseText_any_occurrence_counterexample :
  (Contains (str "TOTAL HOURS: 1:00:00 TOTAL HOURS: 37:15:45")
            (str "TOTAL HOURS: 37:15:45") /\
   parseText V1.totalHoursRe (str "TOTAL HOURS: 1:00:00 TOTAL HOURS: 37:15:45")
   = inr (mkTimeData 1 0 0 (str "this week"))) /\
  ~ (forall text, Contains text (str "TOTAL HOURS: 37:15:45") ->
       exists dr, parseText V1.totalHoursRe text
                  = inr (mkTimeData 37 15 45 dr)).
Proof.
  assert (C : Contains (str "TOTAL HOURS: 1:00:00 TOTAL HOURS: 37:15:45")
                       (str "TOTAL HOURS: 37:15:45"))
    by (exists (str "TOTAL HOURS: 1:00:00 "), []; reflexivity).
  split; [split; [exact C | reflexivity]|].
  intros H. destruct (H _ C) as [dr Hdr].
  vm_compute in Hdr. discriminate Hdr.
Qed.

(** C3, amended.  When [TOTAL HOURS: 37:15:45] is in the text and the
    total-hours pattern matches at no earlier offset, the parse returns
    hours 37, minutes 15, seconds 45 (both revisions); and whenever the
    total-hours pattern occurs but no date range does, the parse succeeds
    with the date range [this week]. *)
Theorem parseText_leftmost_total_and_default_range
  (pre post text : jsstring) :
  ((forall i, (i < List.length pre)%nat ->
      ~ OccursAt V1.totalHoursRe
          (pre ++ str "TOTAL HOURS: 37:15:45" ++ post) i) ->
   exists dr,
     parseText V1.totalHoursRe (pre ++ str "TOTAL HOURS: 37:15:45" ++ post)
     = inr (mkTimeData 37 15 45 dr)) /\
  ((forall i, (i < List.length pre)%nat ->
      ~ OccursAt V2.totalHoursRe
          (pre ++ str "TOTAL HOURS: 37:15:45" ++ post) i) ->
   exists dr,
     parseText V2.totalHoursRe (pre ++ str "TOTAL HOURS: 37:15:45" ++ post)
     = inr (mkTimeData 37 15 45 dr)) /\
  (HasTotalHours1 text -> ~ HasDateRange text ->
   exists h m s,
     parseText V1.totalHoursRe text
     = inr (mkTimeData h m s (str "this week"))) /\
  (HasTotalHours2 text -> ~ HasDateRange text ->
   exists h m s,
     parseText V2.totalHoursRe text
     = inr (mkTimeData h m s (str "this week"))).
Proof.
  repeat split.
  - intros H. eexists.
    exact (parseText_leftmost V1.totalHoursRe pre _ post _
             (matchHere_371545_V1 post) H).
  - intros H. eexists.
    exact (parseText_leftmost V2.totalHoursRe pre _ post _
             (matchHere_371545_V2 post) H).
  - intros H. apply parseText_default_range. apply Occurs_V1. exact H.
  - intros H. apply parseText_default_range. apply Occurs_V2. exact H.
Qed.

Lemma parseText_leftmost_total_and_default_range_witness :
  (exists dr,
     parseText V1.totalHoursRe
       (str "Weekly report " ++ str "TOTAL HOURS: 37:15:45" ++ str " (all)")
     = inr (mkTimeData 37 15 45 dr)) /\
  (exists h m s,
     parseText V2.totalHoursRe (str "total hours 1:02:03")
     = inr (mkTimeData h m s (str "this week"))).
Proof.
  destruct (parseText_leftmost_total_and_default_range
              (str "Weekly report ") (str " (all)")
              (str "total hours 1:02:03")) as [H1 [_ [_ H4]]].
  split.
  - apply H1. apply noneBefore_spec. vm_compute. reflexivity.
  - apply H4.
    + apply Occurs_V2, jsmatch_some. vm_compute. discriminate.
    + rewrite <- Occurs_dateRange, <- jsmatch_some. vm_compute.
      intros H. apply H. reflexivity.
Defined.

(* ================================================================== *)
(** ** The summary line *)

Lemma singleLine_app (a b : jsstring) :
  singleLine (a ++ b) <-> singleLine a /\ singleLine b.
Proof. unfold singleLine. rewrite forallb_app. apply andb_true_iff. Qed.

Lemma string_of_uint_singleLine (d : Decimal.uint) :
  singleLine (str (NilEmpty.string_of_uint d)).
Proof.
  unfold singleLine, str.
  induction d; cbn [NilEmpty.string_of_uint list_ascii_of_string map forallb];
    try reflexivity; rewrite IHd; reflexivity.
Qed.

Lemma numToString_singleLine (z : Z) : singleLine (numToString z).
Proof.
  unfold numToString. destruct (Z.to_int z) as [d|d].
  - apply string_of_uint_singleLine.
  - change (singleLine (str "-" ++ str (NilEmpty.string_of_uint d))).
    apply singleLine_app. split; [reflexivity | apply string_of_uint_singleLine].
Qed.

Lemma clause_singleLine (q : Z) (unit : string) :
  singleLine (str unit) -> singleLine (clause q unit).
Proof.
  intros Hu. unfold clause.
  repeat (apply singleLine_app; split);
    [apply numToString_singleLine | reflexivity | exact Hu |].
  destruct (q =? 1); reflexivity.
Qed.

Lemma timeStr_singleLine (r : RoundedTime) : singleLine (timeStr r).
Proof.
  destruct r as [h m]. rewrite timeStr_cases.
  destruct (h >? 0), (m >? 0).
  - apply singleLine_app. split; [apply clause_singleLine; reflexivity|].
    apply singleLine_app. split; [reflexivity|].
    apply clause_singleLine. reflexivity.
  - apply clause_singleLine. reflexivity.
  - apply clause_singleLine. reflexivity.
  - reflexivity.
Qed.

(** C5, as stated, fails: the phrase is not left bare, [formatTimeMessage]
    wraps it in a pair of asterisks. *)
Lemma formatTimeMessage_bare_phrase_counterexample :
  formatTimeMessage (str "Roxie") (mkRounded 1 0) (str "this week")
  = str "Roxie's time for week of this week: *1 hour*" /\
  formatTimeMessage (str "Roxie") (mkRounded 1 0) (str "this week")
  <> plainSummary (str "Roxie") (mkRounded 1 0) (str "this week").
Proof. split; [reflexivity | vm_compute; discriminate]. Qed.

(** C5, amended.  [formatTimeMessage] returns exactly
    [{name}'s time for week of {dateRange}: *{duration phrase}*]: the phrase
    of [timeStr] between two asterisks and nothing else; the result is a
    single line whenever the name and the date-range label are. *)
Theorem formatTimeMessage_form
  (employeeName : jsstring) (r : RoundedTime) (dateRange : jsstring) :
  formatTimeMessage employeeName r dateRange
  = employeeName ++ str "'s time for week of " ++ dateRange ++ str ": "
      ++ str "*" ++ timeStr r ++ str "*" /\
  (singleLine employeeName -> singleLine dateRange ->
   singleLine (formatTimeMessage employeeName r dateRange)).
Proof.
  split; [unfold formatTimeMessage; repeat rewrite <- app_assoc; reflexivity|].
  intros Hn Hd. unfold formatTimeMessage.
  repeat (apply singleLine_app; split);
    try assumption; try reflexivity.
  apply timeStr_singleLine.
Qed.

Lemma formatTimeMessage_form_witness :
  formatTimeMessage (str "Roxie") (mkRounded 5 45)
                    (str "01/05/2024 - 01/11/2024")
  = str "Roxie's time for week of 01/05/2024 - 01/11/2024: *5 hours 45 minutes*"
  /\ singleLine (formatTimeMessage (str "Roxie") (mkRounded 5 45)
                                   (str "01/05/2024 - 01/11/2024")).
Proof.
  destruct (formatTimeMessage_form (str "Roxie") (mkRounded 5 45)
              (str "01/05/2024 - 01/11/2024")) as [E L].
  split; [rewrite E; reflexivity | apply L; reflexivity].
Defined.

(* ================================================================== *)
(** ** The message handler of the second revision *)

Ltac crunch :=
  cbn [fst snd tracker trace filter isPost List.length app negb] in *.

Ltac run_handler :=
  unfold liftResult, tryCatch, bind, postMessage, downloadFile, setTracker,
         ret, throw in *;
  repeat
    (cbn [fst snd tracker trace filter isPost List.length app negb] in *;
     match goal with
     | |- context [match chat_postMessage ?w ?n ?c ?m with _ => _ end] =>
       destruct (chat_postMessage w n c m) eqn:?
     | |- context [if truthyOpt ?c then _ else _] =>
       destruct (truthyOpt c) eqn:?
     end).

Lemma restrictedDay_spec (w : World) :
  strictNeq (env_FRIDAY_ONLY w) (str "false") && negb (V2.isFriday w) = true
  <-> restrictedDay w.
Proof.
  unfold restrictedDay, strictNeq, V2.isFriday.
  rewrite andb_true_iff, negb_true_iff, Z.eqb_neq.
  destruct (env_FRIDAY_ONLY w) as [v|].
  - rewrite negb_true_iff. split.
    + intros [H1 H2]. split; [|exact H2]. intros E. inversion E; subst v.
      rewrite (proj2 (jseq_eq _ _) eq_refl) in H1. discriminate.
    + intros [H1 H2]. split; [|exact H2].
      destruct (jseq v (str "false")) eqn:E; [|reflexivity].
      apply jseq_eq in E. subst v. contradiction H1. reflexivity.
  - split; intros [_ H]; split; auto. discriminate.
Qed.

(** The gate rejects without a trace. *)
Lemma V2_onMessage_silent (w : World) (event : Event) (st : St) :
  noFiles event = true \/ pdfFileOf event = inr None \/
  (exists f, pdfFileOf event = inr (Some f) /\ isTogglExport f = inr false) ->
  V2.onMessage w event st = (inr tt, st).
Proof.
  unfold V2.onMessage, tryCatch.
  intros [H | [H | [f [H1 H2]]]].
  - rewrite H. reflexivity.
  - destruct (noFiles event); [reflexivity|]. rewrite H. reflexivity.
  - destruct (noFiles event); [reflexivity|]. rewrite H1.
    cbv beta iota delta [bind liftResult ret]. rewrite H2. reflexivity.
Qed.

(** Every run of the handler either leaves the tracker alone and delivers
    no relay, or went through download, extraction, parse and delivery to
    the recipient and then recorded the timesheet. *)
Lemma V2_onMessage_run (w : World) (event : Event) (t : Tracker) :
  (trackerAfter (V2.onMessage w event) t = t /\
   forallb notRelayed (traceOf (V2.onMessage w event) t) = true) \/
  (trackerAfter (V2.onMessage w event) t = mkTracker true (Some (now w)) /\
   exists f buf text td rest,
     pdfFileOf event = inr (Some f) /\ isTogglExport f = inr true /\
     ~ restrictedDay w /\
     https_get w (url_private f) (env_SLACK_BOT_TOKEN w) = inr buf /\
     pdf w buf = inr text /\
     parseText V2.totalHoursRe text = inr td /\
     chat_postMessage w 0 (hrUserId w) (hrMessageOf w td) = None /\
     traceOf (V2.onMessage w event) t =
     Download (url_private f) true
       :: Post Relay (hrUserId w) (hrMessageOf w td) true :: rest).
Proof.
  unfold hrMessageOf, trackerAfter, traceOf, runFrom, V2.onMessage,
         V2.parseTogglPdf, parseTogglPdfWith.
  unfold liftResult, tryCatch, bind, postMessage, downloadFile, setTracker,
         ret, throw.
  destruct (noFiles event) eqn:Enf; [left; split; reflexivity|].
  destruct (pdfFileOf event) as [e|[f|]] eqn:Ef;
    [run_handler; left; split; reflexivity | | left; split; reflexivity].
  crunch.
  destruct (isTogglExport f) as [e|[|]] eqn:Et;
    [run_handler; left; split; reflexivity | | left; split; reflexivity].
  destruct (strictNeq (env_FRIDAY_ONLY w) (str "false")
            && negb (V2.isFriday w)) eqn:Efr.
  { run_handler; left; split; reflexivity. }
  assert (Hday : ~ restrictedDay w)
    by (rewrite <- restrictedDay_spec, Efr; discriminate).
  crunch.
  destruct (https_get w (url_private f) (env_SLACK_BOT_TOKEN w))
    as [e|buf] eqn:Ed.
  { run_handler; left; split; reflexivity. }
  crunch.
  destruct (pdf w buf) as [e|text] eqn:Ep.
  { run_handler; left; split; reflexivity. }
  crunch.
  destruct (parseText V2.totalHoursRe text) as [e|td] eqn:Eparse.
  { run_handler; left; split; reflexivity. }
  crunch.
  destruct (chat_postMessage w 0 (hrUserId w)
              (formatTimeMessage (employeeName w)
                 (roundToNearestMinute (hours td) (minutes td) (seconds td))
                 (dateRange td))) eqn:Er.
  { run_handler; left; split; reflexivity. }
  right. run_handler;
    (split; [reflexivity|];
     exists f, buf, text, td; eexists;
     repeat (split; [first [reflexivity | assumption]|]); reflexivity).
Qed.

Lemma jsfind_none {A : Type} (p : A -> result bool) (l : list A) :
  (forall x, In x l -> p x = inr false) -> jsfind p l = inr None.
Proof.
  induction l as [|a l IH]; intros H; [reflexivity|].
  cbn [jsfind]. rewrite (H a) by (left; reflexivity).
  apply IH. intros x Hx. apply H. right. exact Hx.
Qed.

Lemma jsfind_first {A : Type} (p : A -> result bool) (pre post : list A)
  (a : A) :
  (forall x, In x pre -> p x = inr false) -> p a = inr true ->
  jsfind p (pre ++ a :: post) = inr (Some a).
Proof.
  intros Hpre Ha. induction pre as [|x pre IH]; cbn [app jsfind].
  - rewrite Ha. reflexivity.
  - rewrite (Hpre x) by (left; reflexivity).
    apply IH. intros y Hy. apply Hpre. right. exact Hy.
Qed.

Lemma jsfind_throws {A : Type} (p : A -> result bool) (pre post : list A)
  (a : A) (e : Error) :
  (forall x, In x pre -> p x = inr false) -> p a = inl e ->
  jsfind p (pre ++ a :: post) = inl e.
Proof.
  intros Hpre Ha. induction pre as [|x pre IH]; cbn [app jsfind].
  - rewrite Ha. reflexivity.
  - rewrite (Hpre x) by (left; reflexivity).
    apply IH. intros y Hy. apply Hpre. right. exact Hy.
Qed.

Lemma not_true_false (b : bool) (P : Prop) :
  (b = true <-> P) -> (b = false <-> ~ P).
Proof. intros H. rewrite <- H. destruct b; split; congruence. Qed.

Lemma pdfFileOf_noFiles (event : Event) (f : File) :
  pdfFileOf event = inr (Some f) -> noFiles event = false.
Proof.
  unfold pdfFileOf, noFiles. destruct (files event) as [[|g fs]|];
    [discriminate | reflexivity | discriminate].
Qed.

(** The accepted path: everything up to the delivery to the recipient
    succeeds. *)
Lemma V2_onMessage_relays (w : World) (event : Event) (t : Tracker)
  (f : File) (buf : Buffer) (text : jsstring) (td : TimeData) :
  pdfFileOf event = inr (Some f) -> isTogglExport f = inr true -> ~ restrictedDay w ->
  https_get w (url_private f) (env_SLACK_BOT_TOKEN w) = inr buf ->
  pdf w buf = inr text ->
  parseText V2.totalHoursRe text = inr td ->
  chat_postMessage w 0 (hrUserId w) (hrMessageOf w td) = None ->
  trackerAfter (V2.onMessage w event) t = mkTracker true (Some (now w)) /\
  exists rest,
    traceOf (V2.onMessage w event) t =
    Download (url_private f) true
      :: Post Relay (hrUserId w) (hrMessageOf w td) true :: rest.
Proof.
  intros Ef Et Hday Ed Ep Eparse Er.
  destruct (V2_onMessage_run w event t) as [[_ Hno] | [Ht H]].
  - exfalso. revert Hno.
    unfold hrMessageOf, traceOf, runFrom, V2.onMessage,
           V2.parseTogglPdf, parseTogglPdfWith in *.
    unfold liftResult, tryCatch, bind, postMessage, downloadFile, setTracker,
           ret, throw.
    rewrite (pdfFileOf_noFiles event f Ef), Ef, Et.
    destruct (strictNeq (env_FRIDAY_ONLY w) (str "false")
              && negb (V2.isFriday w)) eqn:Efr;
      [apply restrictedDay_spec in Efr; contradiction|].
    crunch. rewrite Ed. crunch. rewrite Ep. crunch. rewrite Eparse. crunch.
    rewrite Er. run_handler; discriminate.
  - split; [exact Ht|].
    destruct H as [f' [buf' [text' [td' [rest H]]]]].
    destruct H as [Ef' [_ [_ [Ed' [Ep' [Eparse' [_ Htr]]]]]]].
    rewrite Ef in Ef'. inversion Ef'; subst f'.
    rewrite Ed in Ed'. inversion Ed'; subst buf'.
    rewrite Ep in Ep'. inversion Ep'; subst text'.
    rewrite Eparse in Eparse'. inversion Eparse'; subst td'.
    exists rest. exact Htr.
Qed.

(* ================================================================== *)
(** ** Intake gate *)

(** A [TypeError] raised by the gate lands in the [catch] block. *)
Lemma V2_onMessage_gate_throws (w : World) (event : Event) (t : Tracker)
  (e : Error) :
  pdfFileOf event = inl e \/
  (exists f, pdfFileOf event = inr (Some f) /\ isTogglExport f = inl e) ->
  noFiles event = false -> truthyOpt (channel event) = true ->
  trackerAfter (V2.onMessage w event) t = t /\
  exists ok,
    traceOf (V2.onMessage w event) t
    = [Post Failure (channel event) (failureText2 e) ok].
Proof.
  intros H Hnf Hch.
  unfold trackerAfter, traceOf, runFrom, V2.onMessage, failureText2.
  rewrite Hnf. destruct H as [H | [f [Hf H]]].
  - rewrite H. run_handler; try discriminate;
      (split; [reflexivity | eexists; reflexivity]).
  - rewrite Hf. cbv beta iota delta [bind liftResult ret]. rewrite H.
    run_handler; try discriminate;
      (split; [reflexivity | eexists; reflexivity]).
Qed.

(** C7.  The handler of the second revision is not silent for every event
    without a PDF: an attachment stub, which has no name, makes the test
    handed to [find] throw, and the [catch] block answers the sender with
    the error; likewise a nameless attachment that is a PDF by mime type
    becomes the candidate and the name test throws. *)
Theorem nameless_attachment_is_answered_with_error
  (w : World) (t : Tracker) (ct url : option jsstring) :
  (~ IsPdfFile stubFile /\
   exists ok,
     traceOf (V2.onMessage w (mkEvent (Some [stubFile])
                                      (Some (str "D_MANAGER")) ct)) t
     = [Post Failure (Some (str "D_MANAGER"))
             (str "Error: Cannot read properties of undefined (reading 'toLowerCase')")
             ok]) /\
  (pdfFileOf (mkEvent (Some [mkFile None (Some (str "application/pdf")) url])
                      (Some (str "D_MANAGER")) ct)
   = inr (Some (mkFile None (Some (str "application/pdf")) url)) /\
   ~ Recognized (mkFile None (Some (str "application/pdf")) url) /\
   exists ok,
     traceOf (V2.onMessage w
                (mkEvent (Some [mkFile None (Some (str "application/pdf")) url])
                         (Some (str "D_MANAGER")) ct)) t
     = [Post Failure (Some (str "D_MANAGER"))
             (str "Error: Cannot read properties of undefined (reading 'toLowerCase')")
             ok]).
Proof.
  split.
  - split.
    + intros [H | [n [H _]]]; discriminate H.
    + apply (V2_onMessage_gate_throws w
               (mkEvent (Some [stubFile]) (Some (str "D_MANAGER")) ct) t
               nameTypeError); try reflexivity.
      left. reflexivity.
  - split; [reflexivity|]. split.
    + intros [n [H _]]. discriminate H.
    + apply (V2_onMessage_gate_throws w
               (mkEvent (Some [mkFile None (Some (str "application/pdf")) url])
                        (Some (str "D_MANAGER")) ct) t
               nameTypeError); try reflexivity.
      right. eexists. split; reflexivity.
Qed.

(** X23.  For attachments that carry a name the gate is silent (nothing
    posted, nothing downloaded, tracker untouched) when the event has no
    files, when no file is a PDF, and when the candidate's name holds none
    of [toggl], [track], [summary]; on a restricted day a recognized report
    is answered with the Friday notice as the first effect, nothing is
    downloaded or relayed, the tracker is untouched, and the notice is the
    whole trace when its delivery succeeds. *)
Theorem gate_rejections (w : World) (event : Event) (t : Tracker) :
  (files event = None \/ files event = Some [] ->
   runFrom (V2.onMessage w event) t = (inr tt, mkSt t [])) /\
  (forall fs, files event = Some fs ->
     (forall f, In f fs -> Named f /\ ~ IsPdfFile f) ->
     runFrom (V2.onMessage w event) t = (inr tt, mkSt t [])) /\
  (forall f, pdfFileOf event = inr (Some f) -> Named f -> ~ Recognized f ->
     runFrom (V2.onMessage w event) t = (inr tt, mkSt t [])) /\
  (forall f, pdfFileOf event = inr (Some f) -> Recognized f -> restrictedDay w ->
     (exists ok rest,
        traceOf (V2.onMessage w event) t =
        Post Notice (channel event) V2.fridayNotice ok :: rest) /\
     forallb (fun e => negb (isDownload e))
             (traceOf (V2.onMessage w event) t) = true /\
     forallb notRelayed (traceOf (V2.onMessage w event) t) = true /\
     trackerAfter (V2.onMessage w event) t = t /\
     (chat_postMessage w 0 (channel event) V2.fridayNotice = None ->
      runFrom (V2.onMessage w event) t =
      (inr tt, mkSt t [Post Notice (channel event) V2.fridayNotice true]))).
Proof.
  split; [|split; [|split]].
  - intros H. apply V2_onMessage_silent. left. unfold noFiles.
    destruct H as [-> | ->]; reflexivity.
  - intros fs Hfs Hnone. apply V2_onMessage_silent. right. left.
    unfold pdfFileOf. rewrite Hfs. apply jsfind_none.
    intros f Hf. destruct (Hnone f Hf) as [Hn Hp].
    apply isPdf_named_not; assumption.
  - intros f Hf Hn Hrec. apply V2_onMessage_silent. right. right.
    exists f. split; [exact Hf|].
    apply isTogglExport_named_not; assumption.
  - intros f Hf Hrec Hday.
    apply isTogglExport_spec in Hrec. apply restrictedDay_spec in Hday.
    unfold trackerAfter, traceOf, runFrom, V2.onMessage.
    rewrite (pdfFileOf_noFiles event f Hf), Hf.
    cbv beta iota delta [bind liftResult ret]. rewrite Hrec, Hday.
    cbn [negb].
    split; [|split; [|split; [|split]]].
    + run_handler; do 2 eexists; reflexivity.
    + run_handler; reflexivity.
    + run_handler; reflexivity.
    + run_handler; reflexivity.
    + intros Hok.
      unfold liftResult, tryCatch, bind, postMessage, ret. crunch.
      rewrite Hok. reflexivity.
Qed.

Lemma gate_rejections_witness :
  runFrom (V2.onMessage (exampleWorldOn 3 []) exampleEvent) V2.initialTracker
  = (inr tt,
     mkSt V2.initialTracker
          [Post Notice (Some (str "D_MANAGER")) V2.fridayNotice true]) /\
  runFrom (V2.onMessage (exampleWorld [])
             (mkEvent (Some [mkFile (Some (str "holiday.png"))
                                    (Some (str "image/png")) None])
                      (Some (str "D_MANAGER")) (Some (str "im"))))
          V2.initialTracker
  = (inr tt, mkSt V2.initialTracker []).
Proof.
  split.
  - destruct (gate_rejections (exampleWorldOn 3 []) exampleEvent
                V2.initialTracker) as [_ [_ [_ H]]].
    destruct (H (summaryFile (Some (str "application/pdf"))
                 (Some (str "https://files/1"))))
      as [_ [_ [_ [_ H5]]]].
    + reflexivity.
    + apply isTogglExport_spec. reflexivity.
    + split; discriminate.
    + apply H5. reflexivity.
  - destruct (gate_rejections (exampleWorld [])
                (mkEvent (Some [mkFile (Some (str "holiday.png"))
                                       (Some (str "image/png")) None])
                         (Some (str "D_MANAGER")) (Some (str "im")))
                V2.initialTracker) as [_ [H _]].
    apply (H [mkFile (Some (str "holiday.png")) (Some (str "image/png")) None]);
      [reflexivity|].
    intros f [<- | []]. split; [eexists; reflexivity|].
    intros Hpdf. apply isPdf_spec in Hpdf. discriminate Hpdf.
Defined.

(* ================================================================== *)
(** ** Candidate selection *)

Lemma V1_onMessage_silent (w : World) (event : Event) (st : St) :
  noFiles event = true \/ pdfFileOf event = inr None \/
  (exists f, pdfFileOf event = inr (Some f) /\ isTogglExport f = inr false) ->
  V1.onMessage w event st = (inr tt, st).
Proof.
  unfold V1.onMessage, tryCatch.
  intros [H | [H | [f [H1 H2]]]].
  - rewrite H. reflexivity.
  - destruct (noFiles event); [reflexivity|].
    destruct (strictNeq (channel_type event) (str "im")); [reflexivity|].
    rewrite H. reflexivity.
  - destruct (noFiles event); [reflexivity|].
    destruct (strictNeq (channel_type event) (str "im")); [reflexivity|].
    rewrite H1. cbv beta iota delta [bind liftResult ret].
    rewrite H2. reflexivity.
Qed.

Lemma V1_onMessage_gate_throws (w : World) (event : Event) (t : Tracker)
  (e : Error) :
  pdfFileOf event = inl e \/
  (exists f, pdfFileOf event = inr (Some f) /\ isTogglExport f = inl e) ->
  noFiles event = false -> channel_type event = Some (str "im") ->
  truthyOpt (channel event) = true ->
  trackerAfter (V1.onMessage w event) t = t /\
  exists ok,
    traceOf (V1.onMessage w event) t
    = [Post Failure (channel event) (failureText1 e) ok].
Proof.
  intros H Hnf Hct Hch.
  unfold trackerAfter, traceOf, runFrom, V1.onMessage, failureText1.
  assert (E : strictNeq (channel_type event) (str "im") = false)
    by (rewrite Hct; reflexivity).
  rewrite Hnf, E.
  destruct H as [H | [f [Hf H]]].
  - rewrite H. run_handler; try discriminate;
      (split; [reflexivity | eexists; reflexivity]).
  - rewrite Hf. cbv beta iota delta [bind liftResult ret]. rewrite H.
    run_handler; try discriminate;
      (split; [reflexivity | eexists; reflexivity]).
Qed.

(** C10.  The first PDF in list order is not always the one selected: an
    attachment stub before it makes the test handed to [find] throw, so no
    candidate is selected at all, whatever follows, and both revisions
    answer the sender with the error instead of treating the recognized
    report behind the stub. *)
Theorem stub_before_the_first_pdf
  (w : World) (t : Tracker) (post : list File) (url : option jsstring) :
  (~ IsPdfFile stubFile /\
   IsPdfFile (summaryFile (Some (str "application/pdf")) url) /\
   Recognized (summaryFile (Some (str "application/pdf")) url)) /\
  (forall ch ct,
     pdfFileOf
       (mkEvent
          (Some (stubFile :: summaryFile (Some (str "application/pdf")) url
                          :: post)) ch ct)
     = inl nameTypeError) /\
  (exists ok,
     traceOf
       (V2.onMessage w
          (mkEvent
             (Some (stubFile :: summaryFile (Some (str "application/pdf")) url
                             :: post))
             (Some (str "D_MANAGER")) (Some (str "im")))) t
     = [Post Failure (Some (str "D_MANAGER")) (failureText2 nameTypeError) ok])
  /\
  (exists ok,
     traceOf
       (V1.onMessage w
          (mkEvent
             (Some (stubFile :: summaryFile (Some (str "application/pdf")) url
                             :: post))
             (Some (str "D_MANAGER")) (Some (str "im")))) t
     = [Post Failure (Some (str "D_MANAGER")) (failureText1 nameTypeError) ok]).
Proof.
  split; [|split; [|split]].
  - split; [intros [H | [n [H _]]]; discriminate H|].
    split; [left; reflexivity|].
    apply isTogglExport_spec. reflexivity.
  - intros ch ct. reflexivity.
  - apply (V2_onMessage_gate_throws w
             (mkEvent
                (Some (stubFile
                         :: summaryFile (Some (str "application/pdf")) url
                         :: post))
                (Some (str "D_MANAGER")) (Some (str "im"))) t
             nameTypeError); try reflexivity.
    left. reflexivity.
  - apply (V1_onMessage_gate_throws w
             (mkEvent
                (Some (stubFile
                         :: summaryFile (Some (str "application/pdf")) url
                         :: post))
                (Some (str "D_MANAGER")) (Some (str "im"))) t
             nameTypeError); try reflexivity.
    left. reflexivity.
Qed.

(** X24.  Among attachments that carry a name, only the first one in list
    order that is a PDF (by mime type, or by a name ending in [.pdf] in any
    letter case) becomes the candidate, and the recognized-name test looks
    at it alone: when its name is not recognized the event is dropped
    silently in both revisions, whatever the later attachments are. *)
Theorem first_pdf_is_the_candidate
  (w : World) (pre post : list File) (f : File)
  (ch ct : option jsstring) (st : St) :
  (forall g, In g pre -> Named g /\ ~ IsPdfFile g) -> IsPdfFile f ->
  pdfFileOf (mkEvent (Some (pre ++ f :: post)) ch ct) = inr (Some f) /\
  (Named f -> ~ Recognized f ->
   V1.onMessage w (mkEvent (Some (pre ++ f :: post)) ch ct) st = (inr tt, st) /\
   V2.onMessage w (mkEvent (Some (pre ++ f :: post)) ch ct) st = (inr tt, st)).
Proof.
  intros Hpre Hf.
  assert (E : pdfFileOf (mkEvent (Some (pre ++ f :: post)) ch ct)
              = inr (Some f)).
  { unfold pdfFileOf. cbn [files]. apply jsfind_first.
    - intros g Hg. destruct (Hpre g Hg) as [Hn Hp].
      apply isPdf_named_not; assumption.
    - apply isPdf_spec. exact Hf. }
  split; [exact E|]. intros Hn Hrec.
  pose proof (isTogglExport_named_not f Hn Hrec) as Ht.
  split; [apply V1_onMessage_silent | apply V2_onMessage_silent];
    right; right; exists f; auto.
Qed.

Lemma first_pdf_is_the_candidate_witness :
  V2.onMessage (exampleWorld (str "TOTAL HOURS: 5:45:10"))
    (mkEvent
       (Some [mkFile (Some (str "logo.png")) (Some (str "image/png")) None;
              mkFile (Some (str "Invoice.PDF"))
                     (Some (str "application/pdf")) None;
              mkFile (Some (str "toggl_summary.pdf"))
                     (Some (str "application/pdf")) None])
       (Some (str "D_MANAGER")) (Some (str "im")))
    (mkSt V2.initialTracker [])
  = (inr tt, mkSt V2.initialTracker []).
Proof.
  apply (first_pdf_is_the_candidate
           (exampleWorld (str "TOTAL HOURS: 5:45:10"))
           [mkFile (Some (str "logo.png")) (Some (str "image/png")) None]
           [mkFile (Some (str "toggl_summary.pdf"))
                   (Some (str "application/pdf")) None]
           (mkFile (Some (str "Invoice.PDF"))
                   (Some (str "application/pdf")) None)).
  - intros g [<- | []]. split; [eexists; reflexivity|].
    intros H. apply isPdf_spec in H. discriminate H.
  - apply isPdf_spec. reflexivity.
  - eexists. reflexivity.
  - intros H. apply isTogglExport_spec in H. discriminate H.
Defined.

(* ================================================================== *)
(** ** Weekly tracker *)

Lemma fridayCheck_tracker (w : World) (t : Tracker) :
  trackerAfter (V2.fridayCheck w) t = t.
Proof.
  unfold trackerAfter, runFrom, V2.fridayCheck, V2.sendReminderToRoxie,
         getTracker.
  unfold bind at 1. cbn [tracker].
  destruct (timesheetReceivedThisWeek t); cbn [negb]; [reflexivity|].
  destruct (truthyOpt (roxieUserId w)); cbn [negb]; [|reflexivity].
  run_handler; reflexivity.
Qed.

Lemma relayed_in_trace (msg : jsstring) (ch : option jsstring)
  (tr : list Effect) :
  forallb notRelayed tr = true -> ~ In (Post Relay ch msg true) tr.
Proof.
  rewrite forallb_forall. intros H Hin.
  specialize (H _ Hin). discriminate H.
Qed.

(** C8.  The tracker starts PENDING with no timestamp; an operation takes it
    from PENDING to SATISFIED only if it is a message event whose relay to
    the recipient was delivered, and then the timestamp is recorded;
    a delivered relay always leaves it SATISFIED with the timestamp; reset
    gives PENDING from any state and is idempotent; and only the reset takes
    it from SATISFIED to PENDING. *)
Theorem tracker_transitions :
  V2.initialTracker = mkTracker false None /\
  (forall op t,
     PENDING t -> SATISFIED (trackerAfter (V2.perform op) t) ->
     exists w event msg,
       op = V2.OpMessage w event /\
       In (Post Relay (hrUserId w) msg true) (traceOf (V2.perform op) t) /\
       trackerAfter (V2.perform op) t = mkTracker true (Some (now w))) /\
  (forall w event t msg,
     In (Post Relay (hrUserId w) msg true)
        (traceOf (V2.onMessage w event) t) ->
     trackerAfter (V2.onMessage w event) t = mkTracker true (Some (now w))) /\
  (forall t,
     trackerAfter V2.resetWeeklyTracker t = mkTracker false None /\
     PENDING (trackerAfter V2.resetWeeklyTracker t) /\
     trackerAfter V2.resetWeeklyTracker
       (trackerAfter V2.resetWeeklyTracker t)
     = trackerAfter V2.resetWeeklyTracker t) /\
  (forall op t,
     SATISFIED t -> PENDING (trackerAfter (V2.perform op) t) ->
     op = V2.OpMondayReset).
Proof.
  unfold PENDING, SATISFIED.
  split; [reflexivity|]. split; [|split; [|split]].
  - intros [w event | w |] t Hp Hs; cbn [V2.perform] in *.
    + destruct (V2_onMessage_run w event t) as [[Ht _] | [Ht H]].
      * rewrite Ht, Hp in Hs. discriminate Hs.
      * destruct H as [f [buf [text [td [rest [_ [_ [_ [_ [_ [_ [_ Htr]]]]]]]]]]]].
        exists w, event, (hrMessageOf w td).
        split; [reflexivity|]. split; [|exact Ht].
        rewrite Htr. right. left. reflexivity.
    + rewrite fridayCheck_tracker, Hp in Hs. discriminate Hs.
    + discriminate Hs.
  - intros w event t msg Hin.
    destruct (V2_onMessage_run w event t) as [[_ Hno] | [Ht _]];
      [|exact Ht].
    exfalso. exact (relayed_in_trace _ _ _ Hno Hin).
  - intros t. repeat split.
  - intros [w event | w |] t Hs Hp; cbn [V2.perform] in *.
    + exfalso.
      destruct (V2_onMessage_run w event t) as [[Ht _] | [Ht _]];
        rewrite Ht in Hp; [rewrite Hs in Hp|]; discriminate Hp.
    + rewrite fridayCheck_tracker, Hs in Hp. discriminate Hp.
    + reflexivity.
Qed.

Lemma tracker_transitions_witness :
  trackerAfter
    (V2.onMessage
       (exampleWorld (str "TOTAL HOURS: 5:45:10 01/05/2024 - 01/11/2024"))
       exampleEvent) V2.initialTracker
  = mkTracker true (Some 1704700000).
Proof.
  destruct tracker_transitions as [_ [_ [H _]]].
  apply (H (exampleWorld (str "TOTAL HOURS: 5:45:10 01/05/2024 - 01/11/2024"))
           exampleEvent V2.initialTracker expectedSummary).
  vm_compute. right. left. reflexivity.
Defined.

(* ================================================================== *)
(** ** Failures leave the tracker alone *)

(** C9.  When the download, the text extraction, the duration parse or the
    delivery of the summary to the recipient fails, the event leaves the
    tracker as it was; the tracker changes only in a run that delivered the
    relay. *)
Theorem tracker_unchanged_on_failure
  (w : World) (event : Event) (t : Tracker) (f : File) :
  pdfFileOf event = inr (Some f) ->
  (forall e,
     https_get w (url_private f) (env_SLACK_BOT_TOKEN w) = inl e ->
     trackerAfter (V2.onMessage w event) t = t) /\
  (forall buf e,
     https_get w (url_private f) (env_SLACK_BOT_TOKEN w) = inr buf ->
     pdf w buf = inl e ->
     trackerAfter (V2.onMessage w event) t = t) /\
  (forall buf text e,
     https_get w (url_private f) (env_SLACK_BOT_TOKEN w) = inr buf ->
     pdf w buf = inr text ->
     parseText V2.totalHoursRe text = inl e ->
     trackerAfter (V2.onMessage w event) t = t) /\
  (forall buf text td e,
     https_get w (url_private f) (env_SLACK_BOT_TOKEN w) = inr buf ->
     pdf w buf = inr text ->
     parseText V2.totalHoursRe text = inr td ->
     chat_postMessage w 0 (hrUserId w) (hrMessageOf w td) = Some e ->
     trackerAfter (V2.onMessage w event) t = t) /\
  (trackerAfter (V2.onMessage w event) t <> t ->
   exists msg,
     In (Post Relay (hrUserId w) msg true)
        (traceOf (V2.onMessage w event) t)).
Proof.
  intros Ef.
  destruct (V2_onMessage_run w event t) as [[Ht _] | [Ht H]].
  { repeat split; intros; try exact Ht. contradiction. }
  destruct H as [f' [buf' [text' [td' [rest H]]]]].
  destruct H as [Ef' [_ [_ [Ed [Ep [Eparse [Er Htr]]]]]]].
  rewrite Ef in Ef'. inversion Ef'; subst f'. clear Ef'.
  split; [|split; [|split; [|split]]].
  - intros e He. rewrite He in Ed. discriminate Ed.
  - intros buf e Hb He. rewrite Hb in Ed. inversion Ed; subst buf'.
    rewrite He in Ep. discriminate Ep.
  - intros buf text e Hb Hx He. rewrite Hb in Ed. inversion Ed; subst buf'.
    rewrite Hx in Ep. inversion Ep; subst text'.
    rewrite He in Eparse. discriminate Eparse.
  - intros buf text td e Hb Hx Hp He.
    rewrite Hb in Ed. inversion Ed; subst buf'.
    rewrite Hx in Ep. inversion Ep; subst text'.
    rewrite Hp in Eparse. inversion Eparse; subst td'.
    rewrite He in Er. discriminate Er.
  - intros _. exists (hrMessageOf w td'). rewrite Htr. right. left. reflexivity.
Qed.

Lemma tracker_unchanged_on_failure_witness :
  trackerAfter
    (V2.onMessage (exampleWorld (str "Summary without totals")) exampleEvent)
    V2.initialTracker
  = V2.initialTracker.
Proof.
  destruct (tracker_unchanged_on_failure
              (exampleWorld (str "Summary without totals")) exampleEvent
              V2.initialTracker
              (summaryFile (Some (str "application/pdf"))
                 (Some (str "https://files/1")))
              eq_refl) as [_ [_ [H _]]].
  apply (H [] (str "Summary without totals") notFound); reflexivity.
Defined.

(* ================================================================== *)
(** ** End to end *)

Lemma matchHere_54510_V2 (post : jsstring) :
  matchHere V2.totalHoursRe (str "TOTAL HOURS: 5:45:10" ++ post)
  = Some [str "5"; str "45"; str "10"].
Proof. destruct post; vm_compute; reflexivity. Qed.

Lemma matchHere_dateRange (post : jsstring) :
  matchHere dateRangeRe (str "01/05/2024 - 01/11/2024" ++ post)
  = Some [str "01/05/2024"; str "01/11/2024"].
Proof. destruct post; vm_compute; reflexivity. Qed.

Lemma isPdf_summaryFile (mime url : option jsstring) :
  isPdf (summaryFile mime url) = inr true.
Proof.
  unfold isPdf. cbn [mimetype summaryFile].
  destruct (strictEq mime (str "application/pdf")); reflexivity.
Qed.

(** C6, as stated, fails: a text may contain both the total-hours line and
    the date range of the scenario and still relay another duration, because
    the first match of the pattern is the one that counts. *)
Lemma end_to_end_any_occurrence_counterexample :
  ~ (forall text,
       Contains text (str "TOTAL HOURS: 5:45:10") ->
       Contains text (str "01/05/2024 - 01/11/2024") ->
       In (Post Relay (Some (str "U_HR")) expectedSummary true)
          (traceOf (V2.onMessage (exampleWorld text) exampleEvent)
                   V2.initialTracker)).
Proof.
  intros H.
  specialize (H (str "TOTAL HOURS: 1:00:00 TOTAL HOURS: 5:45:10 01/05/2024 - 01/11/2024")).
  assert (C1 : Contains
                 (str "TOTAL HOURS: 1:00:00 TOTAL HOURS: 5:45:10 01/05/2024 - 01/11/2024")
                 (str "TOTAL HOURS: 5:45:10"))
    by (exists (str "TOTAL HOURS: 1:00:00 "), (str " 01/05/2024 - 01/11/2024");
        reflexivity).
  assert (C2 : Contains
                 (str "TOTAL HOURS: 1:00:00 TOTAL HOURS: 5:45:10 01/05/2024 - 01/11/2024")
                 (str "01/05/2024 - 01/11/2024"))
    by (exists (str "TOTAL HOURS: 1:00:00 TOTAL HOURS: 5:45:10 "), [];
        reflexivity).
  specialize (H C1 C2). vm_compute in H.
  destruct H as [H | [H | [H | []]]]; discriminate H.
Qed.

(** C6, amended.  With the default name, on a permitted day, for an event
    whose only file is [Toggl_Summary_2024.pdf], when download, extraction
    and delivery to the recipient succeed and the extracted text holds
    [TOTAL HOURS: 5:45:10] with no earlier total-hours match and
    [01/05/2024 - 01/11/2024] with no earlier date-range match, the message
    relayed to the recipient is exactly the expected summary (the 10 seconds
    round down) and the tracker becomes SATISFIED. *)
Theorem end_to_end_relay
  (w : World) (t : Tracker) (mime url : option jsstring)
  (ch ct : option jsstring)
  (buf : Buffer) (pre1 post1 pre2 post2 text : jsstring) :
  env_EMPLOYEE_NAME w = None ->
  ~ restrictedDay w ->
  https_get w url (env_SLACK_BOT_TOKEN w) = inr buf ->
  pdf w buf = inr text ->
  text = pre1 ++ str "TOTAL HOURS: 5:45:10" ++ post1 ->
  (forall i, (i < List.length pre1)%nat ->
             ~ OccursAt V2.totalHoursRe text i) ->
  text = pre2 ++ str "01/05/2024 - 01/11/2024" ++ post2 ->
  (forall i, (i < List.length pre2)%nat -> ~ OccursAt dateRangeRe text i) ->
  chat_postMessage w 0 (hrUserId w) expectedSummary = None ->
  (exists rest,
     traceOf (V2.onMessage w (mkEvent (Some [summaryFile mime url]) ch ct)) t
     = Download url true
         :: Post Relay (hrUserId w) expectedSummary true :: rest) /\
  SATISFIED
    (trackerAfter (V2.onMessage w (mkEvent (Some [summaryFile mime url]) ch ct))
                  t) /\
  lastTimesheetDate
    (trackerAfter (V2.onMessage w (mkEvent (Some [summaryFile mime url]) ch ct))
                  t) = Some (now w).
Proof.
  intros Hname Hday Hget Hpdf Ht1 Hn1 Ht2 Hn2 Hpost.
  assert (Eparse : parseText V2.totalHoursRe text
                   = inr (mkTimeData 5 45 10 (str "01/05/2024 - 01/11/2024"))).
  { rewrite Ht1 in Hn1 |- *.
    rewrite (parseText_leftmost V2.totalHoursRe pre1 _ post1 _
               (matchHere_54510_V2 post1) Hn1).
    rewrite <- Ht1. rewrite Ht2 in Hn2 |- *.
    rewrite (jsmatch_skip dateRangeRe pre2 _ Hn2).
    rewrite (jsmatch_here dateRangeRe _ _ (matchHere_dateRange post2)).
    reflexivity. }
  assert (Emsg : hrMessageOf w (mkTimeData 5 45 10
                                  (str "01/05/2024 - 01/11/2024"))
                 = expectedSummary).
  { unfold hrMessageOf, employeeName. rewrite Hname. reflexivity. }
  destruct (V2_onMessage_relays w
              (mkEvent (Some [summaryFile mime url]) ch ct) t
              (summaryFile mime url) buf text
              (mkTimeData 5 45 10 (str "01/05/2024 - 01/11/2024")))
    as [Htr [rest Hrest]]; try assumption.
  - unfold pdfFileOf. cbn [files jsfind]. rewrite isPdf_summaryFile.
    reflexivity.
  - reflexivity.
  - rewrite Emsg. exact Hpost.
  - rewrite Emsg in Hrest. split; [exists rest; exact Hrest|].
    rewrite Htr. split; reflexivity.
Qed.

Lemma end_to_end_relay_witness :
  (exists rest,
     traceOf
       (V2.onMessage
          (exampleWorld
             (str "Summary Report 01/05/2024 - 01/11/2024 TOTAL HOURS: 5:45:10 "))
          exampleEvent) V2.initialTracker
     = Download (Some (str "https://files/1")) true
         :: Post Relay (Some (str "U_HR")) expectedSummary true :: rest) /\
  SATISFIED
    (trackerAfter
       (V2.onMessage
          (exampleWorld
             (str "Summary Report 01/05/2024 - 01/11/2024 TOTAL HOURS: 5:45:10 "))
          exampleEvent) V2.initialTracker).
Proof.
  destruct (end_to_end_relay
              (exampleWorld
                 (str "Summary Report 01/05/2024 - 01/11/2024 TOTAL HOURS: 5:45:10 "))
              V2.initialTracker (Some (str "application/pdf"))
              (Some (str "https://files/1"))
              (Some (str "D_MANAGER")) (Some (str "im")) []
              (str "Summary Report 01/05/2024 - 01/11/2024 ") (str " ")
              (str "Summary Report ") (str " TOTAL HOURS: 5:45:10 ")
              (str "Summary Report 01/05/2024 - 01/11/2024 TOTAL HOURS: 5:45:10 "))
    as [H1 [H2 _]].
  - reflexivity.
  - intros [_ H]. apply H. reflexivity.
  - reflexivity.
  - reflexivity.
  - reflexivity.
  - apply noneBefore_spec. vm_compute. reflexivity.
  - reflexivity.
  - apply noneBefore_spec. vm_compute. reflexivity.
  - reflexivity.
  - split; [exact H1 | exact H2].
Defined.

(* ================================================================== *)
(** * Further properties of the code *)

(** ** Rounding beyond the clock range *)

Lemma round_nonneg_total (h m s : Z) :
  0 <= h * 60 + m ->
  let r := roundToNearestMinute h m s in
  minutesOf r = h * 60 + m + (if 30 <=? s then 1 else 0) /\
  0 <= roundedMinutes r <= 59 /\ 0 <= roundedHours r.
Proof.
  intros Ht r. subst r. unfold roundToNearestMinute, minutesOf.
  rewrite Z.geb_leb. cbn [roundedHours roundedMinutes].
  set (T := if 30 <=? s then h * 60 + m + 1 else h * 60 + m).
  assert (HT : 0 <= T) by (subst T; destruct (30 <=? s); lia).
  assert (ET : T = h * 60 + m + (if 30 <=? s then 1 else 0))
    by (subst T; destruct (30 <=? s); lia).
  rewrite Z.rem_mod_nonneg by lia.
  pose proof (Z.div_mod T 60). pose proof (Z.mod_pos_bound T 60).
  pose proof (Z.div_pos T 60). lia.
Qed.


(** X1.  For integer components of magnitude up to [10^12] (where the
    double arithmetic of the source is exact), whenever [hours*60 + minutes]
    is not negative, whatever the individual components and the seconds are
    (the parser hands over minutes and seconds up to 99), the result denotes
    that total plus one minute when seconds >= 30 and nothing otherwise, with
    minutes in [0,59] and hours not negative. *)
Theorem roundToNearestMinute_normalises (h m s : Z) :
  inExactRange h -> inExactRange m -> inExactRange s ->
  0 <= h * 60 + m ->
  let r := roundToNearestMinute h m s in
  minutesOf r = h * 60 + m + (if 30 <=? s then 1 else 0) /\
  0 <= roundedMinutes r <= 59 /\ 0 <= roundedHours r.
Proof. intros _ _ _. exact (round_nonneg_total h m s). Qed.

Lemma roundToNearestMinute_normalises_witness :
  minutesOf (roundToNearestMinute 1 75 99) = 136 /\
  0 <= roundedMinutes (roundToNearestMinute 1 75 99) <= 59.
Proof.
  destruct (roundToNearestMinute_normalises 1 75 99) as [E [B _]];
    [unfold inExactRange; lia | unfold inExactRange; lia
    | unfold inExactRange; lia | lia |].
  split; [exact E | exact B].
Defined.

(** X2.  For integer components of magnitude up to [10^12] (where the
    double arithmetic of the source is exact), a negative total that is not
    a multiple of 60 is not normalised: [Math.floor] rounds the hours down
    while [%] keeps the sign of the total, so the minutes come out in
    [-59,-1] and the pair denotes the total minus 60. *)
Theorem roundToNearestMinute_negative_total (h m s : Z) :
  inExactRange h -> inExactRange m -> inExactRange s ->
  let T := h * 60 + m + (if 30 <=? s then 1 else 0) in
  let r := roundToNearestMinute h m s in
  T < 0 -> T mod 60 <> 0 ->
  -59 <= roundedMinutes r <= -1 /\ minutesOf r = T - 60.
Proof.
  intros _ _ _ T r Hneg Hrem. subst r. unfold roundToNearestMinute, minutesOf.
  rewrite Z.geb_leb. cbn [roundedHours roundedMinutes].
  replace (if 30 <=? s then h * 60 + m + 1 else h * 60 + m) with T
    by (subst T; destruct (30 <=? s); lia).
  clearbody T.
  pose proof (Z.div_mod T 60). pose proof (Z.mod_pos_bound T 60).
  pose proof (Z.rem_bound_pos_neg T 60). pose proof (Z.quot_rem' T 60).
  lia.
Qed.

Lemma roundToNearestMinute_negative_total_witness :
  roundToNearestMinute (-1) 59 0 = mkRounded (-1) (-1).
Proof.
  destruct (roundToNearestMinute_negative_total (-1) 59 0) as [_ E];
    [unfold inExactRange; lia | unfold inExactRange; lia
    | unfold inExactRange; lia | reflexivity | discriminate |].
  reflexivity.
Defined.

(** X3.  Rounding is idempotent: for integer components of magnitude up to
    [10^12] (where the double arithmetic of the source is exact) with a
    total that is not negative and below [60 * 10^12] minutes, the result is
    again in that range, and feeding it back with seconds = 0 returns it
    unchanged. *)
Theorem roundToNearestMinute_idempotent (h m s : Z) :
  inExactRange h -> inExactRange m -> inExactRange s ->
  0 <= h * 60 + m < 60000000000000 ->
  let r := roundToNearestMinute h m s in
  inExactRange (roundedHours r) /\ inExactRange (roundedMinutes r) /\
  roundToNearestMinute (roundedHours r) (roundedMinutes r) 0 = r.
Proof.
  intros Rh Rm _ [Ht Hlt] r.
  assert (Hrange : inExactRange (roundedHours r) /\
                   inExactRange (roundedMinutes r)).
  { destruct (round_nonneg_total h m s Ht) as [Et [Hm Hh]].
    fold r in Et, Hm, Hh. unfold minutesOf in Et.
    unfold inExactRange in *. destruct (30 <=? s); lia. }
  destruct Hrange as [R1 R2]. split; [exact R1|]. split; [exact R2|].
  destruct (round_nonneg_total h m s Ht) as [_ [Hm Hh]].
  fold r in Hm, Hh. destruct r as [rh rm].
  cbn [roundedHours roundedMinutes] in *.
  unfold roundToNearestMinute. cbn [Z.geb Z.compare].
  rewrite Z.rem_mod_nonneg by lia.
  f_equal.
  - symmetry. apply (Z.div_unique _ 60 rh rm); lia.
  - symmetry. apply (Z.mod_unique _ 60 rh rm); lia.
Qed.

Lemma roundToNearestMinute_idempotent_witness :
  roundToNearestMinute 1 0 0 = roundToNearestMinute 0 59 30.
Proof.
  destruct (roundToNearestMinute_idempotent 0 59 30) as [_ [_ E]];
    [unfold inExactRange; lia | unfold inExactRange; lia
    | unfold inExactRange; lia | lia |].
  exact E.
Defined.

(* ================================================================== *)
(** ** The message determines the duration *)

Lemma str_inj (a b : string) : str a = str b -> a = b.
Proof.
  unfold str. intros H.
  rewrite <- (string_of_list_ascii_of_string a),
          <- (string_of_list_ascii_of_string b).
  f_equal. revert H.
  generalize (list_ascii_of_string a) (list_ascii_of_string b).
  induction l as [|x l IH]; intros [|y l']; cbn [map]; intros H;
    try discriminate H; [reflexivity|].
  inversion H as [[Hx Hl]]. f_equal; [|apply IH; exact Hl].
  rewrite <- (ascii_N_embedding x), <- (ascii_N_embedding y), Hx.
  reflexivity.
Qed.

Lemma numToString_inj (a b : Z) : numToString a = numToString b -> a = b.
Proof.
  unfold numToString. intros H. apply str_inj in H.
  assert (E : Z.to_int a = Z.to_int b).
  { pose proof (NilEmpty.isi (Z.to_int a)) as Ha.
    pose proof (NilEmpty.isi (Z.to_int b)) as Hb.
    rewrite H in Ha. rewrite Ha in Hb. inversion Hb. reflexivity. }
  rewrite <- (DecimalZ.of_to a), <- (DecimalZ.of_to b), E. reflexivity.
Qed.

Lemma string_of_uint_noSpace (d : Decimal.uint) :
  noSpace (str (NilEmpty.string_of_uint d)).
Proof.
  unfold noSpace, str.
  induction d; cbn [NilEmpty.string_of_uint list_ascii_of_string map forallb];
    try reflexivity; rewrite IHd; reflexivity.
Qed.

Lemma numToString_noSpace (z : Z) : noSpace (numToString z).
Proof.
  unfold numToString. destruct (Z.to_int z) as [d|d].
  - apply string_of_uint_noSpace.
  - change (noSpace (str "-" ++ str (NilEmpty.string_of_uint d))).
    unfold noSpace. rewrite forallb_app.
    rewrite (string_of_uint_noSpace d). reflexivity.
Qed.

(** Two texts cut at their first space agree piece by piece. *)
Lemma split_at_space (a b x y : jsstring) :
  noSpace a -> noSpace b ->
  a ++ 32%N :: x = b ++ 32%N :: y -> a = b /\ x = y.
Proof.
  unfold noSpace. revert b.
  induction a as [|c a IH]; intros [|d b] Ha Hb H; cbn [app forallb] in *.
  - inversion H. auto.
  - inversion H; subst d. discriminate Hb.
  - inversion H; subst c. discriminate Ha.
  - inversion H; subst d.
    apply andb_true_iff in Ha, Hb. destruct Ha as [_ Ha], Hb as [_ Hb].
    destruct (IH b Ha Hb H2) as [-> ->]. auto.
Qed.

Lemma clause_split (q : Z) (unit : string) (x : jsstring) :
  clause q unit ++ x
  = numToString q ++ 32%N :: (str unit ++ (if q =? 1 then [] else str "s") ++ x).
Proof. unfold clause. repeat rewrite <- app_assoc. reflexivity. Qed.

Lemma clause_inj_num (q1 q2 : Z) (u1 u2 : string) (x y : jsstring) :
  clause q1 u1 ++ x = clause q2 u2 ++ y ->
  q1 = q2 /\
  str u1 ++ (if q1 =? 1 then [] else str "s") ++ x
  = str u2 ++ (if q2 =? 1 then [] else str "s") ++ y.
Proof.
  rewrite !clause_split. intros H.
  apply split_at_space in H; try apply numToString_noSpace.
  destruct H as [Hn Hr]. apply numToString_inj in Hn. auto.
Qed.

(** X4.  The phrase determines the duration: two rounded durations with
    non-negative components that give the same phrase, or the same message
    under one name and one date range, are equal. *)
Theorem timeStr_injective (r1 r2 : RoundedTime) :
  0 <= roundedHours r1 -> 0 <= roundedMinutes r1 ->
  0 <= roundedHours r2 -> 0 <= roundedMinutes r2 ->
  (timeStr r1 = timeStr r2 -> r1 = r2) /\
  (forall name dateRange,
     formatTimeMessage name r1 dateRange = formatTimeMessage name r2 dateRange ->
     r1 = r2).
Proof.
  intros Hh1 Hm1 Hh2 Hm2.
  assert (Inj : timeStr r1 = timeStr r2 -> r1 = r2).
  { destruct r1 as [h1 m1], r2 as [h2 m2].
    cbn [roundedHours roundedMinutes] in *.
    rewrite !timeStr_cases. intros H.
    rewrite <- (app_nil_r (clause h1 "hour")),
            <- (app_nil_r (clause m1 "minute")),
            <- (app_nil_r (clause h2 "hour")),
            <- (app_nil_r (clause m2 "minute")) in H.
    change (str "0 minutes") with (clause 0 "minute" ++ []) in H.
    repeat rewrite <- app_assoc in H.
    destruct (h1 >? 0) eqn:E1, (m1 >? 0) eqn:F1,
             (h2 >? 0) eqn:E2, (m2 >? 0) eqn:F2;
      try apply Z.gtb_lt in E1; try apply Z.gtb_lt in F1;
      try apply Z.gtb_lt in E2; try apply Z.gtb_lt in F2;
      try (rewrite Z.gtb_ltb in E1; apply Z.ltb_ge in E1);
      try (rewrite Z.gtb_ltb in F1; apply Z.ltb_ge in F1);
      try (rewrite Z.gtb_ltb in E2; apply Z.ltb_ge in E2);
      try (rewrite Z.gtb_ltb in F2; apply Z.ltb_ge in F2);
      apply clause_inj_num in H; destruct H as [Hq H]; subst;
      try lia;
      try (destruct (h2 =? 1); cbn in H; discriminate H);
      try (destruct (m2 =? 1); cbn in H; discriminate H);
      try (f_equal; lia).
    - (* both clauses on both sides *)
      apply app_inv_head in H. apply app_inv_head in H.
      change (str " " ++ ?x) with (32%N :: x) in H.
      inversion H as [H'].
      apply clause_inj_num in H'. destruct H' as [-> _]. reflexivity. }
  split; [exact Inj|].
  intros name dateRange H. apply Inj.
  unfold formatTimeMessage in H.
  repeat apply app_inv_head in H. apply app_inv_tail in H. exact H.
Qed.

Lemma timeStr_injective_witness :
  mkRounded 5 45 = roundToNearestMinute 5 45 10.
Proof.
  destruct (timeStr_injective (mkRounded 5 45) (roundToNearestMinute 5 45 10))
    as [H _]; cbn; try lia.
  apply H. reflexivity.
Defined.

(* ================================================================== *)
(** ** What a successful match has captured *)

Lemma quant_sound {R : Type} (cls : N -> bool) :
  forall (s : jsstring) (lo : nat) (hi : option nat)
         (k : jsstring -> jsstring -> option R) (x : R),
    quant cls lo hi s k = Some x ->
    exists w rest,
      s = w ++ rest /\ forallb cls w = true /\
      (lo <= List.length w)%nat /\ withinHi hi (List.length w) /\
      k w rest = Some x.
Proof.
  assert (Stop : forall s lo hi (k : jsstring -> jsstring -> option R) x,
             match lo with O => k [] s | S _ => None end = Some x ->
             exists w rest,
               s = w ++ rest /\ forallb cls w = true /\
               (lo <= List.length w)%nat /\ withinHi hi (List.length w) /\
               k w rest = Some x).
  { intros s [|lo] hi k x H; [|discriminate H]. exists [], s.
    repeat split; auto. destruct hi; simpl; [lia | exact I]. }
  induction s as [|c s IH]; intros lo hi k x H.
  - apply Stop. destruct hi as [[|h]|]; exact H.
  - assert (D : hi = Some 0%nat \/ hi <> Some 0%nat)
      by (destruct hi as [[|h]|];
          [left; reflexivity | right; discriminate | right; discriminate]).
    destruct D as [-> | Hhi]; [apply Stop; exact H|].
    rewrite (quant_step cls lo hi c s k Hhi) in H.
    destruct (cls c) eqn:Ec; [|apply Stop; exact H].
    destruct (quant cls (Nat.pred lo) (option_map Nat.pred hi) s
                    (fun w rest => k (c :: w) rest)) as [y|] eqn:Eq;
      [|apply Stop; exact H].
    inversion H; subst y.
    destruct (IH _ _ _ _ Eq) as [w [rest [Hs [Hall [Hlo [Hw Hk]]]]]].
    exists (c :: w), rest. cbn [forallb List.length app].
    rewrite Ec, Hall, Hs. apply (withinHi_pred hi _ Hhi) in Hw.
    repeat split; auto; lia.
Qed.

Lemma matchAt_sound {R : Type} (r : regex) :
  forall (s : jsstring) (caps : list jsstring)
         (k : jsstring -> jsstring -> list jsstring -> option R) (x : R),
    matchAt r s caps k = Some x ->
    exists w rest cs,
      s = w ++ rest /\ Caps r w cs /\ k w rest (caps ++ cs) = Some x.
Proof.
  induction r as [cls | cls lo hi | r1 IH1 | r1 IH1 r2 IH2 | ];
    intros s caps k x H; cbn [matchAt Caps] in *.
  - destruct s as [|c s]; [discriminate H|].
    destruct (cls c) eqn:Ec; [|discriminate H].
    exists [c], s, []. rewrite app_nil_r. eauto 6.
  - apply quant_sound in H.
    destruct H as [w [rest [Hs [Hall [Hlo [Hw Hk]]]]]].
    exists w, rest, []. rewrite app_nil_r. auto 6.
  - apply IH1 in H. destruct H as [w [rest [cs [Hs [Hc Hk]]]]].
    exists w, rest, (cs ++ [w]). rewrite app_assoc. eauto.
  - apply IH1 in H. destruct H as [w1 [s1 [cs1 [Hs [Hc1 H]]]]].
    apply IH2 in H. destruct H as [w2 [s2 [cs2 [Hs1 [Hc2 Hk]]]]].
    exists (w1 ++ w2), s2, (cs1 ++ cs2).
    rewrite <- app_assoc, <- Hs1, app_assoc.
    split; [exact Hs|]. split; [|exact Hk].
    exists w1, w2, cs1, cs2. auto.
  - exists [], s, []. rewrite app_nil_r. auto.
Qed.

(** [text.match(r)] returns the captures of a word of [r] that starts at
    the leftmost offset where [r] matches at all. *)
Lemma jsmatch_sound (r : regex) (text : jsstring) (caps : list jsstring) :
  jsmatch r text = Some caps ->
  exists pre w post,
    text = pre ++ w ++ post /\ Caps r w caps /\
    forall i, (i < List.length pre)%nat -> ~ OccursAt r text i.
Proof.
  revert caps. induction text as [|c text IH]; intros caps H;
    cbn [jsmatch] in H.
  - destruct (matchHere r []) as [cs|] eqn:E; [|discriminate H].
    inversion H; subst cs. unfold matchHere in E.
    apply matchAt_sound in E. destruct E as [w [rest [cs [Hs [Hc Hk]]]]].
    inversion Hk; subst caps.
    exists [], w, rest. split; [exact Hs|]. split; [exact Hc|].
    intros i Hi. inversion Hi.
  - destruct (matchHere r (c :: text)) as [cs|] eqn:E.
    + inversion H; subst cs. unfold matchHere in E.
      apply matchAt_sound in E. destruct E as [w [rest [cs [Hs [Hc Hk]]]]].
      inversion Hk; subst caps.
      exists [], w, rest. split; [exact Hs|]. split; [exact Hc|].
      intros i Hi. inversion Hi.
    + destruct (IH caps H) as [pre [w [post [Hs [Hc Hnone]]]]].
      exists (c :: pre), w, post. split; [rewrite Hs; reflexivity|].
      split; [exact Hc|]. intros [|i] Hi Ho.
      * apply matchHere_occurs in Ho. rewrite E in Ho.
        apply Ho. reflexivity.
      * apply OccursAt_cons in Ho. apply (Hnone i); [simpl in Hi; lia|].
        exact Ho.
Qed.

Lemma Caps_lit_list (l w : jsstring) (cs : list jsstring) :
  Caps (fold_right (fun c r => Cat (Atom (chI c)) r) Eps l) w cs ->
  sameLetters w l /\ cs = [].
Proof.
  unfold sameLetters. revert w cs.
  induction l as [|c l IH]; intros w cs; cbn [fold_right Caps].
  - intros [-> ->]. split; [constructor | reflexivity].
  - intros [w1 [w2 [cs1 [cs2 [-> [-> [[[a [-> Ha]] ->] H2]]]]]]].
    apply IH in H2. destruct H2 as [H2 ->].
    split; [|reflexivity].
    constructor; [apply N.eqb_eq; exact Ha | exact H2].
Qed.

Lemma Caps_hms (w : jsstring) (cs : list jsstring) :
  Caps hmsRe w cs ->
  exists h m s,
    w = h ++ [58%N] ++ m ++ [58%N] ++ s /\ cs = [h; m; s] /\
    Timestamp h m s.
Proof.
  unfold hmsRe, Timestamp, digits, exactly. cbn [Caps withinHi].
  intros [h [x1 [c1 [c2 [-> [-> [[c0 [[Hh ->] ->]] H]]]]]]].
  destruct H as [y1 [x2 [c3 [c4 [-> [-> [[[a [-> Ha]] ->] H]]]]]]].
  destruct H as [m [x3 [c5 [c6 [-> [-> [[c7 [[Hm ->] ->]] H]]]]]]].
  destruct H as [y2 [s [c8 [c9 [-> [-> [[[b [-> Hb]] ->] H]]]]]]].
  destruct H as [c10 [[Hs ->] ->]].
  apply chI_colon_true in Ha, Hb. subst a b.
  exists h, m, s. split; [reflexivity|]. split; [reflexivity|].
  repeat split; try tauto; lia.
Qed.

Lemma Caps_V1 (w : jsstring) (cs : list jsstring) :
  Caps V1.totalHoursRe w cs ->
  exists lab ws h m s,
    w = lab ++ ws ++ h ++ [58%N] ++ m ++ [58%N] ++ s /\ cs = [h; m; s] /\
    sameLetters lab (str "TOTAL HOURS:") /\ spaces ws /\ Timestamp h m s.
Proof.
  unfold V1.totalHoursRe, star, spaces. cbn [Caps].
  intros [lab [x1 [c1 [c2 [-> [-> [Hlab H]]]]]]].
  destruct H as [ws [x2 [c3 [c4 [-> [-> [[[Hws _] ->] H]]]]]]].
  apply Caps_lit_list in Hlab. destruct Hlab as [Hlab ->].
  apply Caps_hms in H. destruct H as [h [m [s [-> [-> HT]]]]].
  exists lab, ws, h, m, s. auto.
Qed.

Lemma Caps_V2 (w : jsstring) (cs : list jsstring) :
  Caps V2.totalHoursRe w cs ->
  exists a ws b sep h m s,
    w = a ++ ws ++ b ++ sep ++ h ++ [58%N] ++ m ++ [58%N] ++ s /\
    cs = [h; m; s] /\
    sameLetters a (str "TOTAL") /\ spaces ws /\
    sameLetters b (str "HOURS") /\
    forallb (fun c => (c =? 58)%N || isSpace c) sep = true /\
    Timestamp h m s.
Proof.
  unfold V2.totalHoursRe, star, spaces. cbn [Caps].
  intros [a [x1 [c1 [c2 [-> [-> [Ha H]]]]]]].
  destruct H as [ws [x2 [c3 [c4 [-> [-> [[[Hws _] ->] H]]]]]]].
  destruct H as [b [x3 [c5 [c6 [-> [-> [Hb H]]]]]]].
  destruct H as [sep [x4 [c7 [c8 [-> [-> [[[Hsep _] ->] H]]]]]]].
  apply Caps_lit_list in Ha, Hb. destruct Ha as [Ha ->], Hb as [Hb ->].
  rewrite colonOrSpace_ext in Hsep.
  apply Caps_hms in H. destruct H as [h [m [s [-> [-> HT]]]]].
  exists a, ws, b, sep, h, m, s. auto 10.
Qed.

Lemma Caps_date (w : jsstring) (cs : list jsstring) :
  Caps dateRe w cs -> IsDate w /\ cs = [].
Proof.
  unfold dateRe, IsDate, digits, exactly. cbn [Caps withinHi].
  intros [mm [x1 [c1 [c2 [-> [-> [[Hmm ->] H]]]]]]].
  destruct H as [y1 [x2 [c3 [c4 [-> [-> [[[a [-> Ha]] ->] H]]]]]]].
  destruct H as [dd [x3 [c5 [c6 [-> [-> [[Hdd ->] H]]]]]]].
  destruct H as [y2 [yyyy [c7 [c8 [-> [-> [[[b [-> Hb]] ->] [Hy ->]]]]]]]].
  apply ch_true in Ha, Hb. subst a b.
  split; [|reflexivity].
  exists mm, dd, yyyy. split; [reflexivity|].
  repeat split; try tauto; lia.
Qed.

Lemma Caps_dateRange (w : jsstring) (cs : list jsstring) :
  Caps dateRangeRe w cs ->
  exists d1 ws1 ws2 d2,
    w = d1 ++ ws1 ++ [45%N] ++ ws2 ++ d2 /\ cs = [d1; d2] /\
    IsDate d1 /\ spaces ws1 /\ spaces ws2 /\ IsDate d2.
Proof.
  unfold dateRangeRe, star, spaces. cbn [Caps].
  intros [d1 [x1 [c1 [c2 [-> [-> [[c0 [Hd1 ->]] H]]]]]]].
  destruct H as [ws1 [x2 [c3 [c4 [-> [-> [[[Hws1 _] ->] H]]]]]]].
  destruct H as [y [x3 [c5 [c6 [-> [-> [[[a [-> Ha]] ->] H]]]]]]].
  destruct H as [ws2 [d2 [c7 [c8 [-> [-> [[[Hws2 _] ->] [c9 [Hd2 ->]]]]]]]]].
  apply ch_true in Ha. subst a.
  apply Caps_date in Hd1, Hd2. destruct Hd1 as [Hd1 ->], Hd2 as [Hd2 ->].
  exists d1, ws1, ws2, d2. auto 10.
Qed.

(** The value [parseInt] gives a run of [n] digits lies in [0, 10^n). *)
Lemma parseDigits_range (w : jsstring) :
  forallb isDigit w = true ->
  forall acc,
    acc * 10 ^ Z.of_nat (List.length w) <= parseDigits acc w
    < (acc + 1) * 10 ^ Z.of_nat (List.length w).
Proof.
  induction w as [|c w IH]; intros Hd acc.
  - cbn. lia.
  - cbn [forallb] in Hd. apply andb_true_iff in Hd. destruct Hd as [Hc Hw].
    cbn [parseDigits List.length]. rewrite Hc.
    specialize (IH Hw (acc * 10 + Z.of_N (c - 48))).
    unfold isDigit in Hc. apply andb_true_iff in Hc.
    destruct Hc as [H1 H2]. apply N.leb_le in H1, H2.
    rewrite Nat2Z.inj_succ, Z.pow_succ_r by lia.
    assert (0 < 10 ^ Z.of_nat (List.length w)) by (apply Z.pow_pos_nonneg; lia).
    assert (0 <= Z.of_N (c - 48) <= 9) by lia.
    nia.
Qed.

Lemma parseInt_range (w : jsstring) (n : nat) :
  forallb isDigit w = true -> (List.length w <= n)%nat ->
  0 <= parseInt w < 10 ^ Z.of_nat n.
Proof.
  intros Hd Hn. pose proof (parseDigits_range w Hd 0) as H.
  unfold parseInt.
  assert (10 ^ Z.of_nat (List.length w) <= 10 ^ Z.of_nat n)
    by (apply Z.pow_le_mono_r; lia).
  lia.
Qed.

(** A successful parse, whatever the total-hours pattern: the numbers are
    read from the captures of the leftmost match. *)
Lemma parseText_inr (re : regex) (text : jsstring) (td : TimeData) :
  parseText re text = inr td ->
  exists pre w post caps,
    text = pre ++ w ++ post /\ Caps re w caps /\
    (forall i, (i < List.length pre)%nat -> ~ OccursAt re text i) /\
    hours td = parseInt (group caps 1) /\
    minutes td = parseInt (group caps 2) /\
    seconds td = parseInt (group caps 3) /\
    dateRange td = match jsmatch dateRangeRe text with
                   | Some m => group m 1 ++ str " - " ++ group m 2
                   | None => str "this week"
                   end.
Proof.
  unfold parseText. intros H.
  destruct (jsmatch re text) as [caps|] eqn:E; [|discriminate H].
  inversion H; subst td. cbn [hours minutes seconds dateRange].
  destruct (jsmatch_sound re text caps E) as [pre [w [post [Hs [Hc Hl]]]]].
  exists pre, w, post, caps. auto 10.
Qed.

(* ================================================================== *)
(** ** What a successful parse returns *)

(** X5.  A successful parse returns the numbers of an actual occurrence:
    the text splits into a prefix, the marker, the value [h:m:s] and a rest,
    the pattern matches at no offset inside the prefix (the occurrence is the
    leftmost one), and hours, minutes and seconds are [parseInt] of [h], [m]
    and [s].  Stated for the marker of each revision. *)
Theorem parseText_sound (text : jsstring) (td : TimeData) :
  (parseText V1.totalHoursRe text = inr td ->
   exists pre lab ws h m s post,
     text = pre ++ lab ++ ws ++ h ++ [58%N] ++ m ++ [58%N] ++ s ++ post /\
     sameLetters lab (str "TOTAL HOURS:") /\ spaces ws /\ Timestamp h m s /\
     (forall i, (i < List.length pre)%nat ->
                ~ OccursAt V1.totalHoursRe text i) /\
     hours td = parseInt h /\ minutes td = parseInt m /\
     seconds td = parseInt s) /\
  (parseText V2.totalHoursRe text = inr td ->
   exists pre a ws b sep h m s post,
     text = pre ++ a ++ ws ++ b ++ sep
                ++ h ++ [58%N] ++ m ++ [58%N] ++ s ++ post /\
     sameLetters a (str "TOTAL") /\ spaces ws /\
     sameLetters b (str "HOURS") /\
     forallb (fun c => (c =? 58)%N || isSpace c) sep = true /\
     Timestamp h m s /\
     (forall i, (i < List.length pre)%nat ->
                ~ OccursAt V2.totalHoursRe text i) /\
     hours td = parseInt h /\ minutes td = parseInt m /\
     seconds td = parseInt s).
Proof.
  split; intros H; apply parseText_inr in H;
    destruct H as [pre [w [post [caps [Hs [Hc [Hl [Eh [Em [Es _]]]]]]]]]].
  - apply Caps_V1 in Hc.
    destruct Hc as [lab [ws [h [m [s [-> [-> [Hlab [Hws HT]]]]]]]]].
    exists pre, lab, ws, h, m, s, post.
    split; [rewrite Hs; repeat rewrite <- app_assoc; reflexivity|].
    auto 10.
  - apply Caps_V2 in Hc.
    destruct Hc as [a [ws [b [sep [h [m [s H]]]]]]].
    destruct H as [-> [-> [Ha [Hws [Hb [Hsep HT]]]]]].
    exists pre, a, ws, b, sep, h, m, s, post.
    split; [rewrite Hs; repeat rewrite <- app_assoc; reflexivity|].
    auto 12.
Qed.

Lemma parseText_sound_witness :
  exists pre lab ws h m s post,
    str "Week 2: Total Hours:  12:05:59 logged"
    = pre ++ lab ++ ws ++ h ++ [58%N] ++ m ++ [58%N] ++ s ++ post /\
    sameLetters lab (str "TOTAL HOURS:") /\ spaces ws /\ Timestamp h m s /\
    (forall i, (i < List.length pre)%nat ->
       ~ OccursAt V1.totalHoursRe
           (str "Week 2: Total Hours:  12:05:59 logged") i) /\
    12 = parseInt h /\ 5 = parseInt m /\ 59 = parseInt s.
Proof.
  exact (proj1 (parseText_sound
                  (str "Week 2: Total Hours:  12:05:59 logged")
                  (mkTimeData 12 5 59 (str "this week")))
               eq_refl).
Defined.

Lemma Timestamp_ranges (h m s : jsstring) :
  Timestamp h m s ->
  0 <= parseInt h <= 999 /\ 0 <= parseInt m <= 99 /\ 0 <= parseInt s <= 99.
Proof.
  intros [Hh [Hlen [[Hm Hml] [Hs Hsl]]]].
  pose proof (parseInt_range h 3 Hh ltac:(lia)).
  pose proof (parseInt_range m 2 Hm ltac:(lia)).
  pose proof (parseInt_range s 2 Hs ltac:(lia)).
  change (10 ^ Z.of_nat 3) with 1000 in *.
  change (10 ^ Z.of_nat 2) with 100 in *. lia.
Qed.

Lemma parseText_field_ranges (re : regex) (text : jsstring) (td : TimeData) :
  re = V1.totalHoursRe \/ re = V2.totalHoursRe ->
  parseText re text = inr td ->
  0 <= hours td <= 999 /\ 0 <= minutes td <= 99 /\ 0 <= seconds td <= 99.
Proof.
  intros Hre H. apply parseText_inr in H.
  destruct H as [pre [w [post [caps [_ [Hc [_ [-> [-> [-> _]]]]]]]]]].
  destruct Hre as [-> | ->].
  - apply Caps_V1 in Hc.
    destruct Hc as [lab [ws [h [m [s [_ [-> [_ [_ HT]]]]]]]]].
    apply Timestamp_ranges. exact HT.
  - apply Caps_V2 in Hc.
    destruct Hc as [a [ws [b [sep [h [m [s H]]]]]]].
    destruct H as [_ [-> [_ [_ [_ [_ HT]]]]]].
    apply Timestamp_ranges. exact HT.
Qed.

(** X6.  In both revisions a successful parse returns hours in [0,999] and
    minutes and seconds in [0,99]: the two-digit fields are not held to the
    clock range, and the bounds are reached. *)
Theorem parseText_ranges (re : regex) (text : jsstring) (td : TimeData) :
  re = V1.totalHoursRe \/ re = V2.totalHoursRe ->
  parseText re text = inr td ->
  (0 <= hours td <= 999 /\ 0 <= minutes td <= 99 /\ 0 <= seconds td <= 99) /\
  parseText re (str "TOTAL HOURS: 999:99:99")
  = inr (mkTimeData 999 99 99 (str "this week")).
Proof.
  intros Hre H. split; [exact (parseText_field_ranges re text td Hre H)|].
  destruct Hre as [-> | ->]; reflexivity.
Qed.

Lemma parseText_ranges_witness :
  parseText V2.totalHoursRe (str "total hours 1:75:61")
  = inr (mkTimeData 1 75 61 (str "this week")) /\
  0 <= minutes (mkTimeData 1 75 61 (str "this week")) <= 99 /\
  0 <= seconds (mkTimeData 1 75 61 (str "this week")) <= 99.
Proof.
  split; [reflexivity|].
  exact (proj2 (proj1 (parseText_ranges V2.totalHoursRe
                         (str "total hours 1:75:61")
                         (mkTimeData 1 75 61 (str "this week"))
                         (or_intror eq_refl) eq_refl))).
Defined.

(** X7.  The date-range label of a successful parse is either the
    placeholder [this week], when the text holds no date range, or the two
    dates of the leftmost date range joined by exactly [ - ], whatever white
    space the report has around its hyphen. *)
Theorem parseText_dateRange (re : regex) (text : jsstring) (td : TimeData) :
  parseText re text = inr td ->
  (~ HasDateRange text /\ dateRange td = str "this week") \/
  (exists pre d1 ws1 ws2 d2 post,
     text = pre ++ d1 ++ ws1 ++ [45%N] ++ ws2 ++ d2 ++ post /\
     IsDate d1 /\ spaces ws1 /\ spaces ws2 /\ IsDate d2 /\
     (forall i, (i < List.length pre)%nat -> ~ OccursAt dateRangeRe text i) /\
     dateRange td = d1 ++ str " - " ++ d2).
Proof.
  intros H. apply parseText_inr in H.
  destruct H as [_ [_ [_ [_ [_ [_ [_ [_ [_ [_ ->]]]]]]]]]].
  destruct (jsmatch dateRangeRe text) as [caps|] eqn:E.
  - right. apply jsmatch_sound in E.
    destruct E as [pre [w [post [Hs [Hc Hl]]]]].
    apply Caps_dateRange in Hc.
    destruct Hc as [d1 [ws1 [ws2 [d2 [-> [-> [Hd1 [Hw1 [Hw2 Hd2]]]]]]]]].
    exists pre, d1, ws1, ws2, d2, post.
    split; [rewrite Hs; repeat rewrite <- app_assoc; reflexivity|].
    auto 10.
  - left. split; [|reflexivity].
    rewrite <- Occurs_dateRange, <- jsmatch_some, E. intros C. apply C.
    reflexivity.
Qed.

Lemma parseText_dateRange_witness :
  (~ HasDateRange (str "TOTAL HOURS: 1:00:00 for 01/05/2024  -01/11/2024") /\
   str "01/05/2024 - 01/11/2024" = str "this week") \/
  (exists pre d1 ws1 ws2 d2 post,
     str "TOTAL HOURS: 1:00:00 for 01/05/2024  -01/11/2024"
     = pre ++ d1 ++ ws1 ++ [45%N] ++ ws2 ++ d2 ++ post /\
     IsDate d1 /\ spaces ws1 /\ spaces ws2 /\ IsDate d2 /\
     (forall i, (i < List.length pre)%nat ->
        ~ OccursAt dateRangeRe
            (str "TOTAL HOURS: 1:00:00 for 01/05/2024  -01/11/2024") i) /\
     str "01/05/2024 - 01/11/2024" = d1 ++ str " - " ++ d2).
Proof.
  exact (parseText_dateRange V1.totalHoursRe
           (str "TOTAL HOURS: 1:00:00 for 01/05/2024  -01/11/2024")
           (mkTimeData 1 0 0 (str "01/05/2024 - 01/11/2024")) eq_refl).
Defined.

(* ================================================================== *)
(** ** The two total-hours patterns against each other *)

Lemma canonicalize_space (c : N) : canonicalize c = canonicalize 32 -> c = 32%N.
Proof.
  unfold canonicalize. cbn [N.leb N.compare Pos.compare Pos.compare_cont andb].
  destruct ((97 <=? c) && (c <=? 122))%N eqn:E; [|auto].
  apply andb_true_iff in E. destruct E as [E1 E2].
  apply N.leb_le in E1, E2. lia.
Qed.

Lemma canonicalize_colon (c : N) : canonicalize c = canonicalize 58 -> c = 58%N.
Proof.
  intros H. apply chI_colon_true. apply N.eqb_eq. exact H.
Qed.

Lemma HasTotalHours1_2 (text : jsstring) :
  HasTotalHours1 text -> HasTotalHours2 text.
Proof.
  intros [pre [lab [ws [h [m [s [post [-> [Hlab [Hws HT]]]]]]]]]].
  unfold sameLetters in Hlab.
  change (str "TOTAL HOURS:")
    with (str "TOTAL" ++ [32%N] ++ str "HOURS" ++ [58%N]) in Hlab.
  apply Forall2_app_inv_r in Hlab.
  destruct Hlab as [a [r1 [Ha [H1 ->]]]].
  apply Forall2_app_inv_r in H1.
  destruct H1 as [sp [r2 [Hsp [H2 ->]]]].
  apply Forall2_app_inv_r in H2.
  destruct H2 as [b [col [Hb [Hcol ->]]]].
  inversion Hsp as [|x ? ? ? Hx Hnil]; subst. inversion Hnil; subst.
  inversion Hcol as [|y ? ? ? Hy Hnil']; subst. inversion Hnil'; subst.
  apply canonicalize_space in Hx. apply canonicalize_colon in Hy. subst x y.
  exists pre, a, [32%N], b, (58%N :: ws), h, m, s, post.
  split; [repeat rewrite <- app_assoc; reflexivity|].
  split; [exact Ha|]. split; [reflexivity|]. split; [exact Hb|].
  split; [|exact HT].
  cbn [forallb]. unfold spaces in Hws.
  rewrite forallb_forall in Hws. apply forallb_forall.
  intros c Hc. rewrite (Hws c Hc). apply orb_true_r.
Qed.

Lemma parseText_succeeds (re : regex) (text : jsstring) :
  (exists td, parseText re text = inr td) <-> Occurs re text.
Proof.
  rewrite <- jsmatch_some. unfold parseText.
  destruct (jsmatch re text); split.
  - intros _. discriminate.
  - intros _. eexists. reflexivity.
  - intros [td H]. discriminate H.
  - intros H. contradiction H. reflexivity.
Qed.

(** X8.  The second revision accepts every report the first one accepts:
    the marker of the first pattern is an instance of the marker of the
    second.  It accepts more (the colon may be missing), and on one text
    the two may return different durations, the second pattern matching at
    an earlier offset. *)
Theorem second_pattern_accepts_more (text : jsstring) (td1 : TimeData) :
  parseText V1.totalHoursRe text = inr td1 ->
  (exists td2, parseText V2.totalHoursRe text = inr td2) /\
  (parseText V1.totalHoursRe (str "Total hours 7:30:00") = inl notFound /\
   parseText V2.totalHoursRe (str "Total hours 7:30:00")
   = inr (mkTimeData 7 30 0 (str "this week"))) /\
  (parseText V1.totalHoursRe (str "TotalHours 1:00:00 TOTAL HOURS: 2:00:00")
   = inr (mkTimeData 2 0 0 (str "this week")) /\
   parseText V2.totalHoursRe (str "TotalHours 1:00:00 TOTAL HOURS: 2:00:00")
   = inr (mkTimeData 1 0 0 (str "this week"))).
Proof.
  intros H. split; [|split; split; reflexivity].
  apply parseText_succeeds, Occurs_V2, HasTotalHours1_2, Occurs_V1.
  apply parseText_succeeds. exists td1. exact H.
Qed.

Lemma second_pattern_accepts_more_witness :
  exists td2,
    parseText V2.totalHoursRe (str "Report total hours:  8:00:29 ok")
    = inr td2.
Proof.
  exact (proj1 (second_pattern_accepts_more
                  (str "Report total hours:  8:00:29 ok")
                  (mkTimeData 8 0 29 (str "this week")) eq_refl)).
Defined.

(* ================================================================== *)
(** ** Parse, round and format together *)

(** X9.  Whatever a successful parse returns, rounding it gives minutes in
    [0,59] and hours in [0,1000], and the rounded pair denotes
    [hours*60 + minutes] plus one when seconds >= 30: out-of-clock minutes
    such as 75 are carried into the hours, and seconds such as 99 still add
    a single minute. *)
Theorem parse_then_round (re : regex) (text : jsstring) (td : TimeData) :
  re = V1.totalHoursRe \/ re = V2.totalHoursRe ->
  parseText re text = inr td ->
  let r := roundToNearestMinute (hours td) (minutes td) (seconds td) in
  0 <= roundedMinutes r <= 59 /\ 0 <= roundedHours r <= 1000 /\
  minutesOf r
  = hours td * 60 + minutes td + (if 30 <=? seconds td then 1 else 0).
Proof.
  intros Hre H r.
  destruct (parseText_field_ranges re text td Hre H) as [Hh [Hm Hs]].
  destruct (round_nonneg_total (hours td) (minutes td) (seconds td))
    as [Et [Bm Bh]]; [lia|].
  fold r in Et, Bm, Bh. split; [exact Bm|]. split; [|exact Et].
  split; [exact Bh|]. unfold minutesOf in Et.
  destruct (30 <=? seconds td); lia.
Qed.

Lemma parse_then_round_witness :
  roundToNearestMinute 999 99 99 = mkRounded 1000 40 /\
  0 <= roundedMinutes (roundToNearestMinute 999 99 99) <= 59.
Proof.
  split; [reflexivity|].
  exact (proj1 (parse_then_round V1.totalHoursRe
                  (str "TOTAL HOURS: 999:99:99")
                  (mkTimeData 999 99 99 (str "this week"))
                  (or_introl eq_refl) eq_refl)).
Defined.

Lemma digits_singleLine (w : jsstring) :
  forallb isDigit w = true -> singleLine w.
Proof.
  unfold singleLine. rewrite !forallb_forall. intros H c Hc.
  specialize (H c Hc). unfold isDigit in H. apply andb_true_iff in H.
  destruct H as [H1 H2]. apply N.leb_le in H1, H2.
  unfold isLineTerminator.
  destruct (c =? 10)%N eqn:E1; [apply N.eqb_eq in E1; lia|].
  destruct (c =? 13)%N eqn:E2; [apply N.eqb_eq in E2; lia|].
  destruct (c =? 8232)%N eqn:E3; [apply N.eqb_eq in E3; lia|].
  destruct (c =? 8233)%N eqn:E4; [apply N.eqb_eq in E4; lia|].
  reflexivity.
Qed.

Lemma IsDate_singleLine (d : jsstring) : IsDate d -> singleLine d.
Proof.
  intros [mm [dd [yyyy [-> [[Hm _] [[Hd _] [Hy _]]]]]]].
  repeat (apply singleLine_app; split);
    try (apply digits_singleLine; assumption); reflexivity.
Qed.

(** X10.  The summary relayed for a successfully parsed report is a single
    line whenever the configured employee name is: neither the date-range
    label taken from the report nor the duration phrase can bring a line
    break into it. *)
Theorem relayed_summary_single_line
  (re : regex) (w : World) (text : jsstring) (td : TimeData) :
  parseText re text = inr td ->
  singleLine (employeeName w) ->
  singleLine (hrMessageOf w td).
Proof.
  intros H Hn.
  assert (Hd : singleLine (dateRange td)).
  { apply parseText_inr in H.
    destruct H as [_ [_ [_ [_ [_ [_ [_ [_ [_ [_ ->]]]]]]]]]].
    destruct (jsmatch dateRangeRe text) as [caps|] eqn:E; [|reflexivity].
    apply jsmatch_sound in E. destruct E as [pre [x [post [_ [Hc _]]]]].
    apply Caps_dateRange in Hc.
    destruct Hc as [d1 [ws1 [ws2 [d2 [_ [-> [Hd1 [_ [_ Hd2]]]]]]]]].
    cbn [group Nat.sub nth].
    repeat (apply singleLine_app; split);
      try (apply IsDate_singleLine; assumption); reflexivity. }
  unfold hrMessageOf, formatTimeMessage.
  repeat (apply singleLine_app; split);
    try assumption; try reflexivity.
  apply timeStr_singleLine.
Qed.

Lemma relayed_summary_single_line_witness :
  singleLine
    (hrMessageOf (exampleWorld [])
       (mkTimeData 5 45 10 (str "01/05/2024 - 01/11/2024"))).
Proof.
  apply (relayed_summary_single_line V2.totalHoursRe (exampleWorld [])
           (str "TOTAL HOURS: 5:45:10 01/05/2024 - 01/11/2024")).
  - reflexivity.
  - reflexivity.
Defined.

(* ================================================================== *)
(** ** What the handlers do to the outside *)

(** Case analysis of a handler run: every test of the handler and every
    outcome of a collaborator becomes a case, with its equation kept. *)
Ltac explore :=
  unfold trackerAfter, traceOf, runFrom, V1.onMessage, V2.onMessage,
         V1.parseTogglPdf, V2.parseTogglPdf, parseTogglPdfWith;
  unfold liftResult, tryCatch, bind, postMessage, downloadFile, setTracker,
         ret, throw;
  repeat
    (crunch;
     match goal with
     | H : noFiles ?e = _ |- context [noFiles ?e] => rewrite H
     | H : strictNeq (channel_type ?e) ?l = _
       |- context [strictNeq (channel_type ?e) ?l] => rewrite H
     | H : pdfFileOf ?e = _ |- context [pdfFileOf ?e] => rewrite H
     | H : isTogglExport ?f = _ |- context [isTogglExport ?f] => rewrite H
     | H : strictNeq (env_FRIDAY_ONLY ?w) ?l && negb (V2.isFriday ?w) = _
       |- context [strictNeq (env_FRIDAY_ONLY ?w) ?l
                   && negb (V2.isFriday ?w)] => rewrite H
     | H : https_get ?w ?u ?k = _ |- context [https_get ?w ?u ?k] =>
       rewrite H
     | H : pdf ?w ?b = _ |- context [pdf ?w ?b] => rewrite H
     | H : parseText ?r ?x = _ |- context [parseText ?r ?x] => rewrite H
     | H : chat_postMessage ?w ?n ?c ?m = _
       |- context [chat_postMessage ?w ?n ?c ?m] => rewrite H
     | H : truthyOpt ?c = _ |- context [truthyOpt ?c] => rewrite H
     | |- context [noFiles ?e] => destruct (noFiles e) eqn:?
     | |- context [strictNeq (channel_type ?e) ?l] =>
       destruct (strictNeq (channel_type e) l) eqn:?
     | |- context [pdfFileOf ?e] =>
       destruct (pdfFileOf e) as [?|[?|]] eqn:?
     | |- context [isTogglExport ?f] =>
       destruct (isTogglExport f) as [?|[|]] eqn:?
     | |- context [strictNeq (env_FRIDAY_ONLY ?w) ?l
                   && negb (V2.isFriday ?w)] =>
       destruct (strictNeq (env_FRIDAY_ONLY w) l && negb (V2.isFriday w))
                eqn:?
     | |- context [https_get ?w ?u ?k] => destruct (https_get w u k) eqn:?
     | |- context [pdf ?w ?b] => destruct (pdf w b) eqn:?
     | |- context [parseText ?r ?x] => destruct (parseText r x) eqn:?
     | |- context [chat_postMessage ?w ?n ?c ?m] =>
       destruct (chat_postMessage w n c m) eqn:?
     | |- context [truthyOpt ?c] => destruct (truthyOpt c) eqn:?
     end);
  crunch.

Ltac in_cases :=
  repeat
    match goal with
    | H : In _ [] |- _ => destruct H
    | H : In _ (_ :: _) |- _ => destruct H as [H | H]
    | H : Download _ _ = Download _ _ |- _ => inversion H; clear H; subst
    | H : Post _ _ _ _ = Post _ _ _ _ |- _ => inversion H; clear H; subst
    | H : Download _ _ = Post _ _ _ _ |- _ => discriminate H
    | H : Post _ _ _ _ = Download _ _ |- _ => discriminate H
    end.

Lemma not_restrictedDay (w : World) :
  strictNeq (env_FRIDAY_ONLY w) (str "false") && negb (V2.isFriday w) = false
  -> ~ restrictedDay w.
Proof. intros E. rewrite <- restrictedDay_spec, E. discriminate. Qed.

(** X11.  The second revision downloads at most once per event, and only
    the private URL of the candidate file, only when that file's name is
    recognized and the day is not restricted. *)
Theorem download_only_accepted_candidate
  (w : World) (event : Event) (t : Tracker) (url : option jsstring)
  (ok : bool) :
  In (Download url ok) (traceOf (V2.onMessage w event) t) ->
  (exists f,
     pdfFileOf event = inr (Some f) /\ url = url_private f /\
     Recognized f /\ ~ restrictedDay w) /\
  (List.length (filter isDownload (traceOf (V2.onMessage w event) t)) <= 1)%nat.
Proof.
  intros Hin. revert Hin. explore; intros Hin; in_cases;
    (split; [|cbn; lia]);
    match goal with
    | F : File |- _ =>
      exists F; repeat split; auto;
      [apply isTogglExport_spec; assumption
      | apply not_restrictedDay; assumption]
    end.
Qed.

(** X12.  Whatever the second revision posts at its relay site goes to the
    configured recipient and is the summary formatted from the duration
    parsed out of the downloaded candidate file; there is at most one such
    post per event. *)
Theorem relay_is_the_parsed_summary
  (w : World) (event : Event) (t : Tracker)
  (ch : option jsstring) (text : jsstring) (ok : bool) :
  In (Post Relay ch text ok) (traceOf (V2.onMessage w event) t) ->
  ch = hrUserId w /\
  (exists f buf txt td,
     pdfFileOf event = inr (Some f) /\
     https_get w (url_private f) (env_SLACK_BOT_TOKEN w) = inr buf /\
     pdf w buf = inr txt /\
     parseText V2.totalHoursRe txt = inr td /\
     text = hrMessageOf w td) /\
  (List.length (filter isRelayPost (traceOf (V2.onMessage w event) t)) <= 1)%nat.
Proof.
  intros Hin. revert Hin. explore; intros Hin; in_cases;
    (split; [reflexivity|]; split; [|cbn; lia]);
    do 4 eexists; repeat (split; [first [reflexivity | eassumption]|]);
    reflexivity.
Qed.

(** X13.  An error leaves the handler of the second revision only when the
    failure notice itself could not be delivered: the run then ends with a
    failed post from the [catch] block to the sender's channel.  When the
    event has no channel the handler always returns normally. *)
Theorem error_escapes_only_from_failure_notice
  (w : World) (event : Event) (t : Tracker) :
  (forall e,
     fst (runFrom (V2.onMessage w event) t) = inl e ->
     truthyOpt (channel event) = true /\
     exists pre e0,
       traceOf (V2.onMessage w event) t
       = pre ++ [Post Failure (channel event) (failureText2 e0) false]) /\
  (truthyOpt (channel event) = false ->
   fst (runFrom (V2.onMessage w event) t) = inr tt).
Proof.
  split.
  - intros e. unfold failureText2. explore; intros H; try discriminate H;
      (split; [reflexivity|]);
      match goal with
      | |- exists pre e0, ?tr = _ => exists (removelast tr)
      end; eexists; reflexivity.
  - intros Hch. explore; reflexivity.
Qed.

(** X14.  When the download, the text extraction or the duration parse of an
    accepted report fails and the event has a channel, the second revision
    answers the sender with [Error: ] followed by the error's message, and
    does nothing else after the download; a report without the total-hours
    marker is answered with
    [Error: Could not find TOTAL HOURS in the PDF]. *)
Theorem pipeline_failure_is_reported
  (w : World) (event : Event) (t : Tracker) (f : File) :
  pdfFileOf event = inr (Some f) -> Recognized f -> ~ restrictedDay w ->
  truthyOpt (channel event) = true ->
  (forall e,
     https_get w (url_private f) (env_SLACK_BOT_TOKEN w) = inl e ->
     exists ok,
       traceOf (V2.onMessage w event) t
       = [Download (url_private f) false;
          Post Failure (channel event) (failureText2 e) ok]) /\
  (forall buf e,
     https_get w (url_private f) (env_SLACK_BOT_TOKEN w) = inr buf ->
     pdf w buf = inl e ->
     exists ok,
       traceOf (V2.onMessage w event) t
       = [Download (url_private f) true;
          Post Failure (channel event) (failureText2 e) ok]) /\
  (forall buf text,
     https_get w (url_private f) (env_SLACK_BOT_TOKEN w) = inr buf ->
     pdf w buf = inr text ->
     ~ HasTotalHours2 text ->
     exists ok,
       traceOf (V2.onMessage w event) t
       = [Download (url_private f) true;
          Post Failure (channel event)
               (str "Error: Could not find TOTAL HOURS in the PDF") ok]).
Proof.
  intros Hf Hrec Hday Hch.
  pose proof (pdfFileOf_noFiles event f Hf) as Hnf.
  apply isTogglExport_spec in Hrec.
  apply (not_true_false _ _ (restrictedDay_spec w)) in Hday.
  unfold failureText2.
  split; [|split].
  - intros e He. explore; eexists; reflexivity.
  - intros buf e Hb He. explore; eexists; reflexivity.
  - intros buf text Hb Hx Hno.
    rewrite <- Occurs_V2 in Hno. apply parseText_fails in Hno.
    explore; eexists; reflexivity.
Qed.

(** X15.  A confirmation that cannot be delivered does not undo the relay:
    the recipient has the summary, the tracker records the timesheet, and
    the sender, if the event has a channel, is sent the failure notice with
    the error of the confirmation. *)
Theorem failed_confirmation_keeps_relay
  (w : World) (event : Event) (t : Tracker)
  (f : File) (buf : Buffer) (text : jsstring) (td : TimeData) (e : Error) :
  pdfFileOf event = inr (Some f) -> Recognized f -> ~ restrictedDay w ->
  https_get w (url_private f) (env_SLACK_BOT_TOKEN w) = inr buf ->
  pdf w buf = inr text ->
  parseText V2.totalHoursRe text = inr td ->
  chat_postMessage w 0 (hrUserId w) (hrMessageOf w td) = None ->
  chat_postMessage w 1 (channel event) (confirmText w (hrMessageOf w td))
  = Some e ->
  trackerAfter (V2.onMessage w event) t = mkTracker true (Some (now w)) /\
  exists rest,
    traceOf (V2.onMessage w event) t
    = Download (url_private f) true
        :: Post Relay (hrUserId w) (hrMessageOf w td) true
        :: Post Confirm (channel event) (confirmText w (hrMessageOf w td))
                false
        :: rest /\
    (truthyOpt (channel event) = false -> rest = []) /\
    (truthyOpt (channel event) = true ->
     exists ok,
       rest = [Post Failure (channel event) (failureText2 e) ok]).
Proof.
  intros Hf Hrec Hday Hb Hx Hp Hr Hc.
  pose proof (pdfFileOf_noFiles event f Hf) as Hnf.
  apply isTogglExport_spec in Hrec.
  apply (not_true_false _ _ (restrictedDay_spec w)) in Hday.
  unfold failureText2, confirmText, hrMessageOf in *.
  explore; (split; [reflexivity|]); eexists;
    (split; [reflexivity|]); split; intros H; try discriminate H;
    try reflexivity; eexists; reflexivity.
Qed.

Lemma download_only_accepted_candidate_witness :
  exists f,
    pdfFileOf exampleEvent = inr (Some f) /\
    Some (str "https://files/1") = url_private f /\
    Recognized f /\ ~ restrictedDay (exampleWorld (str "no totals")).
Proof.
  apply (download_only_accepted_candidate
           (exampleWorld (str "no totals")) exampleEvent V2.initialTracker
           (Some (str "https://files/1")) true).
  vm_compute. left. reflexivity.
Defined.

Lemma relay_is_the_parsed_summary_witness :
  Some (str "U_HR") = hrUserId (exampleWorld (str "TOTAL HOURS: 0:00:31")) /\
  (List.length
     (filter isRelayPost
        (traceOf (V2.onMessage (exampleWorld (str "TOTAL HOURS: 0:00:31"))
                               exampleEvent) V2.initialTracker)) <= 1)%nat.
Proof.
  destruct (relay_is_the_parsed_summary
              (exampleWorld (str "TOTAL HOURS: 0:00:31")) exampleEvent
              V2.initialTracker (Some (str "U_HR"))
              (str "Roxie's time for week of this week: *1 minute*") true)
    as [H1 [_ H3]].
  - vm_compute. right. left. reflexivity.
  - split; [exact H1 | exact H3].
Defined.

Lemma error_escapes_only_from_failure_notice_witness :
  truthyOpt (channel exampleEvent) = true /\
  exists pre e0,
    traceOf
      (V2.onMessage
         (worldWithChat (fun _ _ _ => Some (mkError (str "not_in_channel")))
                        (str "no totals"))
         exampleEvent) V2.initialTracker
    = pre ++ [Post Failure (channel exampleEvent) (failureText2 e0) false].
Proof.
  apply (proj1 (error_escapes_only_from_failure_notice
                  (worldWithChat
                     (fun _ _ _ => Some (mkError (str "not_in_channel")))
                     (str "no totals"))
                  exampleEvent V2.initialTracker)
               (mkError (str "not_in_channel"))).
  reflexivity.
Defined.

Lemma pipeline_failure_is_reported_witness :
  exists ok,
    traceOf (V2.onMessage (exampleWorld (str "Summary without totals"))
                          exampleEvent) V2.initialTracker
    = [Download (Some (str "https://files/1")) true;
       Post Failure (Some (str "D_MANAGER"))
            (str "Error: Could not find TOTAL HOURS in the PDF") ok].
Proof.
  destruct (pipeline_failure_is_reported
              (exampleWorld (str "Summary without totals")) exampleEvent
              V2.initialTracker
              (summaryFile (Some (str "application/pdf"))
                 (Some (str "https://files/1"))))
    as [_ [_ H]].
  - reflexivity.
  - apply isTogglExport_spec. reflexivity.
  - intros [_ H]. apply H. reflexivity.
  - reflexivity.
  - apply (H [] (str "Summary without totals")); try reflexivity.
    rewrite <- Occurs_V2, <- jsmatch_some. vm_compute.
    intros C. apply C. reflexivity.
Defined.

Lemma failed_confirmation_keeps_relay_witness :
  trackerAfter
    (V2.onMessage
       (worldWithChat
          (fun n _ _ => if (n =? 1)%nat
                        then Some (mkError (str "channel_not_found"))
                        else None)
          (str "TOTAL HOURS: 5:45:10"))
       exampleEvent) V2.initialTracker
  = mkTracker true (Some 1704700000).
Proof.
  apply (failed_confirmation_keeps_relay
           (worldWithChat
              (fun n _ _ => if (n =? 1)%nat
                            then Some (mkError (str "channel_not_found"))
                            else None)
              (str "TOTAL HOURS: 5:45:10"))
           exampleEvent V2.initialTracker
           (summaryFile (Some (str "application/pdf"))
                 (Some (str "https://files/1")))
           [] (str "TOTAL HOURS: 5:45:10")
           (mkTimeData 5 45 10 (str "this week"))
           (mkError (str "channel_not_found"))); try reflexivity.
  - apply isTogglExport_spec. reflexivity.
  - intros [_ H]. apply H. reflexivity.
Defined.

(* ================================================================== *)
(** ** The first revision *)

(** X16.  The first revision acts only on direct messages: an event whose
    channel type is anything but [im], or is missing, is dropped without any
    effect.  The second revision does not look at the channel type at all. *)
Theorem first_revision_only_direct_messages
  (w : World) (event : Event) (st : St) :
  channel_type event <> Some (str "im") ->
  V1.onMessage w event st = (inr tt, st) /\
  (forall ct,
     V2.onMessage w (mkEvent (files event) (channel event) ct) st
     = V2.onMessage w event st).
Proof.
  intros Hct. split; [|intros ct; destruct event; reflexivity].
  assert (E : strictNeq (channel_type event) (str "im") = true).
  { unfold strictNeq. destruct (channel_type event) as [v|]; [|reflexivity].
    apply negb_true_iff.
    destruct (jseq v (str "im")) eqn:Ej; [|reflexivity].
    apply jseq_eq in Ej. subst v. contradiction Hct. reflexivity. }
  unfold V1.onMessage, tryCatch.
  destruct (noFiles event); [reflexivity|]. rewrite E. reflexivity.
Qed.

Lemma first_revision_only_direct_messages_witness :
  V1.onMessage (exampleWorld (str "TOTAL HOURS: 5:45:10"))
    (mkEvent (files exampleEvent) (channel exampleEvent)
             (Some (str "channel")))
    (mkSt V2.initialTracker [])
  = (inr tt, mkSt V2.initialTracker []).
Proof.
  apply (first_revision_only_direct_messages
           (exampleWorld (str "TOTAL HOURS: 5:45:10"))
           (mkEvent (files exampleEvent) (channel exampleEvent)
                    (Some (str "channel")))).
  discriminate.
Defined.

Lemma im_not_strictNeq (event : Event) :
  channel_type event = Some (str "im") ->
  strictNeq (channel_type event) (str "im") = false.
Proof. intros ->. reflexivity. Qed.

(** X17.  In a direct message, when the download, the text extraction or
    the duration parse of an accepted report fails and the event has a
    channel, the first revision answers the sender with
    [I had trouble processing that PDF: ], the error's message, a blank line
    and the hint to check the report, and does nothing else after the
    download. *)
Theorem first_revision_reports_failure
  (w : World) (event : Event) (t : Tracker) (f : File) :
  channel_type event = Some (str "im") ->
  pdfFileOf event = inr (Some f) -> Recognized f ->
  truthyOpt (channel event) = true ->
  (forall e,
     https_get w (url_private f) (env_SLACK_BOT_TOKEN w) = inl e ->
     exists ok,
       traceOf (V1.onMessage w event) t
       = [Download (url_private f) false;
          Post Failure (channel event) (failureText1 e) ok]) /\
  (forall buf e,
     https_get w (url_private f) (env_SLACK_BOT_TOKEN w) = inr buf ->
     pdf w buf = inl e ->
     exists ok,
       traceOf (V1.onMessage w event) t
       = [Download (url_private f) true;
          Post Failure (channel event) (failureText1 e) ok]) /\
  (forall buf text,
     https_get w (url_private f) (env_SLACK_BOT_TOKEN w) = inr buf ->
     pdf w buf = inr text ->
     ~ HasTotalHours1 text ->
     exists ok,
       traceOf (V1.onMessage w event) t
       = [Download (url_private f) true;
          Post Failure (channel event) (failureText1 notFound) ok]).
Proof.
  intros Hct Hf Hrec Hch.
  pose proof (pdfFileOf_noFiles event f Hf) as Hnf.
  apply im_not_strictNeq in Hct.
  apply isTogglExport_spec in Hrec.
  unfold failureText1.
  split; [|split].
  - intros e He. explore; eexists; reflexivity.
  - intros buf e Hb He. explore; eexists; reflexivity.
  - intros buf text Hb Hx Hno.
    rewrite <- Occurs_V1 in Hno. apply parseText_fails in Hno.
    explore; eexists; reflexivity.
Qed.

Lemma first_revision_reports_failure_witness :
  exists ok,
    traceOf (V1.onMessage (exampleWorld (str "Total hours 7:30:00"))
                          exampleEvent) V2.initialTracker
    = [Download (Some (str "https://files/1")) true;
       Post Failure (Some (str "D_MANAGER")) (failureText1 notFound) ok].
Proof.
  destruct (first_revision_reports_failure
              (exampleWorld (str "Total hours 7:30:00")) exampleEvent
              V2.initialTracker
              (summaryFile (Some (str "application/pdf"))
                 (Some (str "https://files/1"))))
    as [_ [_ H]].
  - reflexivity.
  - reflexivity.
  - apply isTogglExport_spec. reflexivity.
  - reflexivity.
  - apply (H [] (str "Total hours 7:30:00")); try reflexivity.
    rewrite <- Occurs_V1, <- jsmatch_some. vm_compute.
    intros C. apply C. reflexivity.
Defined.

(** X18.  In a direct message with an accepted report whose download,
    extraction and parse succeed, the first revision posts the summary of the
    parsed duration to the recipient and, once that is delivered, the
    confirmation quoting the same summary to the sender; the tracker plays
    no part. *)
Theorem first_revision_relays
  (w : World) (event : Event) (t : Tracker)
  (f : File) (buf : Buffer) (text : jsstring) (td : TimeData) :
  channel_type event = Some (str "im") ->
  pdfFileOf event = inr (Some f) -> Recognized f ->
  https_get w (url_private f) (env_SLACK_BOT_TOKEN w) = inr buf ->
  pdf w buf = inr text ->
  parseText V1.totalHoursRe text = inr td ->
  chat_postMessage w 0 (hrUserId w) (hrMessageOf w td) = None ->
  trackerAfter (V1.onMessage w event) t = t /\
  exists ok rest,
    traceOf (V1.onMessage w event) t
    = Download (url_private f) true
        :: Post Relay (hrUserId w) (hrMessageOf w td) true
        :: Post Confirm (channel event) (confirmText w (hrMessageOf w td)) ok
        :: rest.
Proof.
  intros Hct Hf Hrec Hb Hx Hp Hr.
  pose proof (pdfFileOf_noFiles event f Hf) as Hnf.
  apply im_not_strictNeq in Hct.
  apply isTogglExport_spec in Hrec.
  unfold confirmText, hrMessageOf in *.
  explore; (split; [reflexivity|]); do 2 eexists; reflexivity.
Qed.

Lemma first_revision_relays_witness :
  exists ok rest,
    traceOf (V1.onMessage (exampleWorld (str "TOTAL HOURS: 5:45:10"))
                          exampleEvent) V2.initialTracker
    = Download (Some (str "https://files/1")) true
        :: Post Relay (Some (str "U_HR"))
             (str "Roxie's time for week of this week: *5 hours 45 minutes*")
             true
        :: Post Confirm (Some (str "D_MANAGER"))
             (confirmText (exampleWorld (str "TOTAL HOURS: 5:45:10"))
                (str "Roxie's time for week of this week: *5 hours 45 minutes*"))
             ok
        :: rest.
Proof.
  apply (first_revision_relays
           (exampleWorld (str "TOTAL HOURS: 5:45:10")) exampleEvent
           V2.initialTracker
           (summaryFile (Some (str "application/pdf"))
                 (Some (str "https://files/1")))
           [] (str "TOTAL HOURS: 5:45:10")
           (mkTimeData 5 45 10 (str "this week"))); try reflexivity.
  apply isTogglExport_spec. reflexivity.
Defined.

(* ================================================================== *)
(** ** The Friday check and the tracker over time *)

Lemma fridayCheck_run (w : World) (t : Tracker) :
  fst (runFrom (V2.fridayCheck w) t) = inr tt /\
  (traceOf (V2.fridayCheck w) t = [] <->
   timesheetReceivedThisWeek t = true \/ truthyOpt (roxieUserId w) = false) /\
  (forall e, In e (traceOf (V2.fridayCheck w) t) ->
             exists ok, e = Post Reminder (roxieUserId w) reminderText ok) /\
  (List.length (traceOf (V2.fridayCheck w) t) <= 1)%nat.
Proof.
  unfold traceOf, runFrom, V2.fridayCheck, V2.sendReminderToRoxie,
         getTracker, reminderText.
  unfold bind. cbn [tracker].
  destruct (timesheetReceivedThisWeek t); cbn [negb].
  { cbn. split; [reflexivity|]. split; [split; auto|].
    split; [intros e []|lia]. }
  destruct (truthyOpt (roxieUserId w)); cbn [negb].
  2:{ cbn. split; [reflexivity|]. split; [split; auto|].
      split; [intros e []|lia]. }
  unfold tryCatch, postMessage, ret. crunch.
  destruct (chat_postMessage w 0 (roxieUserId w) _); cbn;
    (split; [reflexivity|]);
    (split; [split; [discriminate | intros [H | H]; discriminate H]|]);
    (split; [|lia]);
    intros x [<- | []]; eexists; reflexivity.
Qed.

(** X19.  The Friday check never throws, even when the reminder cannot be
    delivered, and never changes the tracker; it posts at most one message,
    always the reminder text to the configured employee, and it posts
    nothing exactly when the timesheet was received or no employee id is
    configured. *)
Theorem friday_check_reminds_when_pending (w : World) (t : Tracker) :
  fst (runFrom (V2.fridayCheck w) t) = inr tt /\
  trackerAfter (V2.fridayCheck w) t = t /\
  (traceOf (V2.fridayCheck w) t = [] <->
   timesheetReceivedThisWeek t = true \/ truthyOpt (roxieUserId w) = false) /\
  (forall e, In e (traceOf (V2.fridayCheck w) t) ->
             exists ok, e = Post Reminder (roxieUserId w) reminderText ok) /\
  (List.length (traceOf (V2.fridayCheck w) t) <= 1)%nat.
Proof.
  destruct (fridayCheck_run w t) as [H1 [H2 [H3 H4]]].
  pose proof (fridayCheck_tracker w t). auto.
Qed.

Lemma friday_check_reminds_when_pending_witness :
  exists ok,
    Post Reminder (Some (str "U_ROXIE")) reminderText true
    = Post Reminder (roxieUserId (worldWithChat (fun _ _ _ => None) []))
           reminderText ok.
Proof.
  destruct (friday_check_reminds_when_pending
              (worldWithChat (fun _ _ _ => None) []) V2.initialTracker)
    as [_ [_ [_ [H _]]]].
  apply H. vm_compute. left. reflexivity.
Defined.

Lemma traceOf_onMessage_indep (w : World) (event : Event) (t t' : Tracker) :
  traceOf (V2.onMessage w event) t = traceOf (V2.onMessage w event) t'.
Proof. explore; reflexivity. Qed.

(** One operation on the received flag. *)
Lemma perform_received (op : V2.Op) (t : Tracker) :
  timesheetReceivedThisWeek (trackerAfter (V2.perform op) t)
  = if isReset op then false
    else timesheetReceivedThisWeek t || deliversRelay op.
Proof.
  destruct op as [w event | w |]; cbn [V2.perform isReset deliversRelay].
  - rewrite (traceOf_onMessage_indep w event V2.initialTracker t).
    destruct (V2_onMessage_run w event t) as [[Ht Hno] | [Ht H]].
    + rewrite Ht, Hno. cbn [negb]. rewrite orb_false_r. reflexivity.
    + destruct H as [f [buf [text [td [rest [_ [_ [_ [_ [_ [_ [_ Htr]]]]]]]]]]]].
      rewrite Ht, Htr. cbn. rewrite orb_true_r. reflexivity.
  - rewrite fridayCheck_tracker, orb_false_r. reflexivity.
  - reflexivity.
Qed.

Lemma runOps_received (ops : list V2.Op) :
  forall t,
    timesheetReceivedThisWeek (runOps ops t) = true <->
    (timesheetReceivedThisWeek t = true /\
     forallb (fun o => negb (isReset o)) ops = true) \/
    (exists before op after,
       ops = before ++ op :: after /\ deliversRelay op = true /\
       forallb (fun o => negb (isReset o)) after = true).
Proof.
  induction ops as [|op ops IH]; intros t.
  - cbn. split.
    + intros H. left. auto.
    + intros [[H _] | [before [op [after [H _]]]]]; [exact H|].
      destruct before; discriminate H.
  - change (runOps (op :: ops) t)
      with (runOps ops (trackerAfter (V2.perform op) t)).
    rewrite IH, perform_received. cbn [forallb]. split.
    + intros [[Hr Hn] | [before [o [after [-> [Hd Hn]]]]]].
      * destruct (isReset op) eqn:Er; [discriminate Hr|].
        apply orb_true_iff in Hr. destruct Hr as [Hr | Hr].
        -- left. auto.
        -- right. exists [], op, ops. auto.
      * right. exists (op :: before), o, after. auto.
    + intros [[Hr Hn] | [before [o [after [E [Hd Hn]]]]]].
      * apply andb_true_iff in Hn. destruct Hn as [Hop Hn].
        apply negb_true_iff in Hop. rewrite Hop, Hr. left. auto.
      * destruct before as [|b before]; inversion E; subst.
        -- left. split; [|exact Hn].
           destruct o; cbn in Hd |- *; try discriminate Hd.
           rewrite Hd. apply orb_true_r.
        -- right. exists before, o, after. auto.
Qed.

(** X20.  After any sequence of message events, Friday checks and Monday
    resets since start-up, the timesheet counts as received exactly when
    some message event delivered its relay and no reset came after it; so
    the Friday check that follows stays silent exactly in that case, or when
    no employee id is configured. *)
Theorem received_since_last_reset (ops : list V2.Op) (w : World) :
  (timesheetReceivedThisWeek (runOps ops V2.initialTracker) = true <->
   exists before op after,
     ops = before ++ op :: after /\ deliversRelay op = true /\
     forallb (fun o => negb (isReset o)) after = true) /\
  (traceOf (V2.fridayCheck w) (runOps ops V2.initialTracker) = [] <->
   (exists before op after,
      ops = before ++ op :: after /\ deliversRelay op = true /\
      forallb (fun o => negb (isReset o)) after = true) \/
   truthyOpt (roxieUserId w) = false).
Proof.
  assert (R : timesheetReceivedThisWeek (runOps ops V2.initialTracker) = true
              <-> exists before op after,
                    ops = before ++ op :: after /\ deliversRelay op = true /\
                    forallb (fun o => negb (isReset o)) after = true).
  { rewrite runOps_received. split; [|auto].
    intros [[H _] | H]; [discriminate H | exact H]. }
  split; [exact R|].
  destruct (fridayCheck_run w (runOps ops V2.initialTracker)) as [_ [H _]].
  rewrite H, R. reflexivity.
Qed.

(* ================================================================== *)
(** ** Repeat submissions and the day policy *)

(** X21.  The handler of the second revision never consults the tracker:
    from any two tracker states an event causes the same effects and the
    same outcome, so a second timesheet in one week is relayed again; and a
    delivered relay overwrites the recorded time with the current one. *)
Theorem handler_ignores_tracker
  (w : World) (event : Event) (t t' : Tracker) :
  traceOf (V2.onMessage w event) t = traceOf (V2.onMessage w event) t' /\
  fst (runFrom (V2.onMessage w event) t)
  = fst (runFrom (V2.onMessage w event) t') /\
  (trackerAfter (V2.onMessage w event) t = t \/
   trackerAfter (V2.onMessage w event) t = mkTracker true (Some (now w))).
Proof.
  split; [apply traceOf_onMessage_indep|].
  split; [explore; reflexivity|].
  destruct (V2_onMessage_run w event t) as [[H _] | [H _]]; auto.
Qed.

Lemma policy_off_dec (w : World) :
  env_FRIDAY_ONLY w = Some (str "false") \/
  env_FRIDAY_ONLY w <> Some (str "false").
Proof.
  destruct (env_FRIDAY_ONLY w) as [v|]; [|right; discriminate].
  destruct (jseq v (str "false")) eqn:E.
  - left. apply jseq_eq in E. subst v. reflexivity.
  - right. intros H. inversion H; subst v.
    rewrite (proj2 (jseq_eq _ _) eq_refl) in E. discriminate E.
Qed.

(** X22.  On a day other than Friday an accepted report is fetched exactly
    when the environment variable [FRIDAY_ONLY] is the string [false]: a
    missing variable, or any other value, leaves the policy on. *)
Theorem policy_off_only_by_false
  (w : World) (event : Event) (t : Tracker) (f : File) :
  getDay w <> 5 -> pdfFileOf event = inr (Some f) -> Recognized f ->
  ((exists ok, In (Download (url_private f) ok)
                  (traceOf (V2.onMessage w event) t))
   <-> env_FRIDAY_ONLY w = Some (str "false")).
Proof.
  intros Hday Hf Hrec.
  pose proof (pdfFileOf_noFiles event f Hf) as Hnf.
  apply isTogglExport_spec in Hrec.
  destruct (policy_off_dec w) as [Hoff | Hon].
  - split; [intros _; exact Hoff|]. intros _.
    assert (E : strictNeq (env_FRIDAY_ONLY w) (str "false")
                && negb (V2.isFriday w) = false)
      by (rewrite Hoff; reflexivity).
    explore; eexists; left; reflexivity.
  - split; [|intros H; contradiction].
    intros [ok Hin]. exfalso. revert Hin.
    assert (E : strictNeq (env_FRIDAY_ONLY w) (str "false")
                && negb (V2.isFriday w) = true)
      by (apply restrictedDay_spec; split; assumption).
    explore; intros Hin; in_cases.
Qed.

Lemma policy_off_only_by_false_witness :
  ~ exists ok,
      In (Download (Some (str "https://files/1")) ok)
         (traceOf (V2.onMessage (exampleWorldOn 3 (str "TOTAL HOURS: 1:00:00"))
                                exampleEvent) V2.initialTracker).
Proof.
  intros H.
  apply (policy_off_only_by_false
           (exampleWorldOn 3 (str "TOTAL HOURS: 1:00:00")) exampleEvent
           V2.initialTracker
           (summaryFile (Some (str "application/pdf"))
                 (Some (str "https://files/1"))))
    in H.
  - discriminate H.
  - discriminate.
  - reflexivity.
  - apply isTogglExport_spec. reflexivity.
Defined.
